(** * tap-gorgias: stream classes of [tap_gorgias/streams.py]

    A shallow embedding of the stream declarations and of the methods the
    ticket streams override ([TicketsStream.get_child_context],
    [TicketDetailsStream.get_url_params], [TicketDetailsStream.parse_response]
    and [TicketDetailsStream.post_process]), with the properties of the
    connector's specification stated over them. *)

From Stdlib Require Import List Ascii String ZArith Bool Lia.
Import ListNotations.
Open Scope string_scope.
Open Scope list_scope.

(** ** Python values

    The values handled by the streams are the ones [response.json()] builds.
    A Python [dict] keeps its keys unique and in insertion order, and the
    order is observable ([list(d.keys())] drives the loop of
    [parse_response]), so a dict is an association list in insertion order.
    A float is kept as mantissa and binary exponent; no method looks inside
    one. *)

Unset Elimination Schemes.
Inductive json : Type :=
| JNull
| JBool (b : bool)
| JInt (n : Z)
| JFloat (m e : Z)
| JStr (s : string)
| JArr (items : list json)
| JObj (fields : list (string * json)).
Set Elimination Schemes.

Definition dict : Type := list (string * json).

(** The exceptions of the model: the three built-in ones the methods can
    raise, and the two names of the specification's error taxonomy that the
    claims speak about.  No definition below ever produces the last two. *)
Inductive exn : Type :=
| KeyError (key : string)
| TypeError
| AttributeError
| TransformError
| ContextError.

Inductive result (A : Type) : Type :=
| Ok (a : A)
| Err (e : exn).

Arguments Ok {A} a.
Arguments Err {A} e.

Definition bind {A B : Type} (r : result A) (k : A -> result B) : result B :=
  match r with
  | Ok a => k a
  | Err e => Err e
  end.

Notation "x <- r ;; k" := (bind r (fun x => k))
  (at level 61, r at next level, right associativity).
Notation "' pat <- r ;; k" := (bind r (fun x => match x with pat => k end))
  (at level 61, pat pattern, r at next level, right associativity).

Fixpoint mapM {A B : Type} (f : A -> result B) (xs : list A) : result (list B) :=
  match xs with
  | [] => Ok []
  | x :: xs' => y <- f x ;; ys <- mapM f xs' ;; Ok (y :: ys)
  end.

(** ** Dict operations *)

Module Dict.

(** [k in d] and [d.get(k)]. *)
Fixpoint get (k : string) (d : dict) : option json :=
  match d with
  | [] => None
  | (k', v) :: d' => if String.eqb k k' then Some v else get k d'
  end.

(** [d[k]]: raises [KeyError] on a missing key. *)
Definition getitem (k : string) (d : dict) : result json :=
  match get k d with
  | Some v => Ok v
  | None => Err (KeyError k)
  end.

(** [d[k] = v]: an existing key keeps its position, a new one goes last. *)
Fixpoint set (k : string) (v : json) (d : dict) : dict :=
  match d with
  | [] => [(k, v)]
  | (k', v') :: d' =>
      if String.eqb k k' then (k, v) :: d' else (k', v') :: set k v d'
  end.

(** The dict without key [k]. *)
Definition remove (k : string) (d : dict) : dict :=
  filter (fun kv => negb (String.eqb k (fst kv))) d.

(** [d.pop(k)]: the value and the dict without [k]; [KeyError] when
    [k] is missing. *)
Definition pop (k : string) (d : dict) : result (json * dict) :=
  match get k d with
  | Some v => Ok (v, remove k d)
  | None => Err (KeyError k)
  end.

(** [d.pop(k, None)] as a statement: the value is dropped, nothing is
    raised. *)
Definition pop_default (k : string) (d : dict) : dict := remove k d.

(** [list(d.keys())]. *)
Definition keys (d : dict) : list string := map fst d.

(** The invariant of a Python dict: no key twice. *)
Definition wf (d : dict) : Prop := NoDup (keys d).

Definition mem (k : string) (ks : list string) : bool :=
  existsb (String.eqb k) ks.

Fixpoint nodupb (ks : list string) : bool :=
  match ks with
  | [] => true
  | k :: ks' => negb (mem k ks') && nodupb ks'
  end.

Definition wfb (d : dict) : bool := nodupb (keys d).

End Dict.

(** ** Operations on arbitrary values *)

(** [o[k]] for a string [k]: only a dict can be subscripted by a string. *)
Definition getitem (o : json) (k : string) : result json :=
  match o with
  | JObj d => Dict.getitem k d
  | _ => Err TypeError
  end.

(** [o[k] = v] for a string [k]. *)
Definition setitem (o : json) (k : string) (v : json) : result json :=
  match o with
  | JObj d => Ok (JObj (Dict.set k v d))
  | _ => Err TypeError
  end.

(** [o.keys()]: only a dict has the method. *)
Definition keys (o : json) : result (list string) :=
  match o with
  | JObj d => Ok (Dict.keys d)
  | _ => Err AttributeError
  end.

(** [v == s] for a string literal [s]. *)
Definition eq_str (v : json) (s : string) : bool :=
  match v with
  | JStr s' => String.eqb s' s
  | _ => false
  end.

(** ** TicketsStream.get_child_context *)

Definition get_child_context (record : dict) (context : option dict)
  : result dict :=
  id <- Dict.getitem "id" record ;;
  Ok [("ticket_id", id)].

(** ** TicketDetailsStream.get_url_params *)

Definition get_url_params (context : option dict) (next_page_token : option json)
  : dict := [].

(** ** TicketDetailsStream.parse_response *)

(** One turn of the loop, on the integrations dict:
<<
    if integrations[key]["__integration_type__"] == "shopify":
        integrations["shopify"] = integrations.pop(key)
        integrations["shopify"]["id"] = key
>> *)
Definition swap_key (key : string) (integrations : dict) : result dict :=
  entry <- Dict.getitem key integrations ;;
  ty <- getitem entry "__integration_type__" ;;
  if eq_str ty "shopify" then
    ' (popped, d1) <- Dict.pop key integrations ;;
    let d2 := Dict.set "shopify" popped d1 in
    sh <- Dict.getitem "shopify" d2 ;;
    sh' <- setitem sh "id" (JStr key) ;;
    Ok (Dict.set "shopify" sh' d2)
  else Ok integrations.

(** The loop over the snapshot [list(integrations.keys())]. *)
Fixpoint swap_keys (ks : list string) (integrations : dict) : result dict :=
  match ks with
  | [] => Ok integrations
  | key :: ks' => d <- swap_key key integrations ;; swap_keys ks' d
  end.

(** [resp] is the decoded body [response.json()].  The loop mutates the
    dict [resp["customer"]["integrations"]] in place; the model threads that
    dict through the loop and stores it back under the same two keys.  The
    generator yields one item, so the result is a one-element list. *)
Definition parse_response (resp : json) : result (list json) :=
  customer <- getitem resp "customer" ;;
  integrations <- getitem customer "integrations" ;;
  ks <- keys integrations ;;
  match integrations with
  | JObj d =>
      d' <- swap_keys ks d ;;
      customer' <- setitem customer "integrations" (JObj d') ;;
      resp' <- setitem resp "customer" customer' ;;
      Ok [resp']
  | _ => Err AttributeError
  end.

(** ** TicketDetailsStream.post_process *)

(** The four [pop(..., None)] statements, in the order of the source. *)
Definition pop_bodies (d : dict) : dict :=
  Dict.pop_default "stripped_html"
    (Dict.pop_default "stripped_text"
      (Dict.pop_default "body_html"
        (Dict.pop_default "body_text" d))).

(** The body of the loop on one [message]: a dict loses the four keys;
    [list.pop] takes at most one argument; no other value has [pop]. *)
Definition pop_message (message : json) : result json :=
  match message with
  | JObj d => Ok (JObj (pop_bodies d))
  | JArr _ => Err TypeError
  | _ => Err AttributeError
  end.

(** [for message in row["messages"]]: a list gives its items; a dict gives
    its keys and a string its characters, which are strings without [pop];
    nothing else is iterable. *)
Definition post_process (row : dict) (context : option dict) : result dict :=
  let row1 := pop_bodies row in
  messages <- Dict.getitem "messages" row1 ;;
  match messages with
  | JArr ms =>
      ms' <- mapM pop_message ms ;;
      Ok (Dict.set "messages" (JArr ms') row1)
  | JObj [] => Ok row1
  | JObj (_ :: _) => Err AttributeError
  | JStr EmptyString => Ok row1
  | JStr (String _ _) => Err AttributeError
  | _ => Err TypeError
  end.

(** ** Stream declarations *)

(** The JSON Schema helpers of [singer_sdk.typing] the declarations use. *)
Unset Elimination Schemes.
Inductive jtype : Type :=
| IntegerType
| StringType
| BooleanType
| DateTimeType
| ObjectType (properties : list (string * jtype))
| ArrayType (items : jtype).
Set Elimination Schemes.

Definition Property (name : string) (t : jtype) : string * jtype := (name, t).

Definition PropertiesList : Type := list (string * jtype).

Definition CUSTOMER_SCHEMA : jtype :=
  ObjectType
    [ Property "id" IntegerType;
      Property "email" StringType;
      Property "name" StringType;
      Property "firstname" StringType;
      Property "lastname" StringType ].

Inductive StreamClass : Type :=
| TicketsStream
| TicketDetailsStream
| MessagesStream
| SatisfactionSurveysStream
| CustomersStream
| IntegreationsStream.

Definition name (s : StreamClass) : string :=
  match s with
  | TicketsStream => "tickets"
  | TicketDetailsStream => "ticket_details"
  | MessagesStream => "messages"
  | SatisfactionSurveysStream => "satisfaction_surveys"
  | CustomersStream => "customers"
  | IntegreationsStream => "integrations"
  end.

Definition path (s : StreamClass) : string :=
  match s with
  | TicketsStream => "/api/tickets"
  | TicketDetailsStream => "/api/tickets/{ticket_id}"
  | MessagesStream => "/api/tickets/{ticket_id}/messages"
  | SatisfactionSurveysStream => "/api/satisfaction-surveys"
  | CustomersStream => "/api/customers"
  | IntegreationsStream => "/api/integrations"
  end.

Definition primary_keys (s : StreamClass) : list string := ["id"].

Definition parent_stream_type (s : StreamClass) : option StreamClass :=
  match s with
  | TicketDetailsStream | MessagesStream => Some TicketsStream
  | _ => None
  end.

(** Modelled from the spec: the base class [GorgiasStream]
    ([tap_gorgias/client.py]) is not part of the sources, so the value a
    class inherits when it does not assign [replication_key] is taken from
    the specification's data model, where the replication key of a stream
    definition is optional and absent unless declared. *)
Definition GorgiasStream_replication_key : option string := None.

Definition replication_key (s : StreamClass) : option string :=
  match s with
  | TicketsStream => Some "updated_datetime"
  | _ => GorgiasStream_replication_key
  end.

(** Modelled from the spec: likewise for [state_partitioning_keys], which
    only the two child classes assign; a stream that does not declare it
    keeps per-parent partitioned state ([None]: partition by the whole
    context). *)
Definition GorgiasStream_state_partitioning_keys : option (list string) := None.

Definition state_partitioning_keys (s : StreamClass) : option (list string) :=
  match s with
  | TicketDetailsStream | MessagesStream => Some []
  | _ => GorgiasStream_state_partitioning_keys
  end.

(** [next_page_token_jsonpath] is assigned by one class only; [None] stands
    for the value inherited from the base class. *)
Definition next_page_token_jsonpath (s : StreamClass) : option string :=
  match s with
  | IntegreationsStream => Some "$.meta.next_items"
  | _ => None
  end.

Module Schema.

Definition tickets : PropertiesList :=
  [ Property "id" IntegerType;
    Property "uri" StringType;
    Property "external_id" StringType;
    Property "language" StringType;
    Property "status" StringType;
    Property "priority" StringType;
    Property "channel" StringType;
    Property "via" StringType;
    Property "from_agent" BooleanType;
    Property "requester" CUSTOMER_SCHEMA;
    Property "customer" CUSTOMER_SCHEMA;
    Property "assignee_user" CUSTOMER_SCHEMA;
    Property "assignee_team"
      (ObjectType
         [ Property "id" IntegerType;
           Property "name" StringType;
           Property "decoration"
             (ObjectType
                [ Property "emoji"
                    (ObjectType
                       [ Property "id" StringType;
                         Property "name" StringType;
                         Property "skin" IntegerType;
                         Property "colons" StringType;
                         Property "native" StringType;
                         Property "unified" StringType ]) ]) ]);
    Property "subject" StringType;
    Property "excerpt" StringType;
    Property "integrations"
      (ArrayType
         (ObjectType
            [ Property "name" StringType;
              Property "address" StringType;
              Property "type" StringType ]));
    Property "tags"
      (ArrayType
         (ObjectType
            [ Property "id" IntegerType;
              Property "name" StringType;
              Property "uri" StringType ]));
    Property "messages_count" IntegerType;
    Property "is_unread" BooleanType;
    Property "created_datetime" DateTimeType;
    Property "opened_datetime" DateTimeType;
    Property "last_received_message_datetime" DateTimeType;
    Property "last_message_datetime" DateTimeType;
    Property "updated_datetime" DateTimeType;
    Property "closed_datetime" DateTimeType;
    Property "snooze_datetime" DateTimeType ].

Definition ticket_details : PropertiesList :=
  [ Property "id" IntegerType;
    Property "assignee_user"
      (ObjectType
         [ Property "id" IntegerType;
           Property "email" StringType;
           Property "name" StringType;
           Property "first_name" StringType;
           Property "last_name" StringType ]);
    Property "channel" StringType;
    Property "closed_datetime" DateTimeType;
    Property "created_datetime" DateTimeType;
    Property "customer"
      (ObjectType
         [ Property "id" IntegerType;
           Property "name" StringType;
           Property "email" StringType;
           Property "integrations"
             (ObjectType
                [ Property "shopify"
                    (ObjectType
                       [ Property "id" IntegerType;
                         Property "orders"
                           (ArrayType
                              (ObjectType
                                 [ Property "id" IntegerType;
                                   Property "name" StringType;
                                   Property "line_items"
                                     (ArrayType
                                        (ObjectType
                                           [ Property "id" IntegerType ])) ])) ]) ]) ]);
    Property "events"
      (ArrayType
         (ObjectType
            [ Property "id" IntegerType;
              Property "context" StringType;
              Property "created_datetime" DateTimeType;
              Property "object_id" IntegerType;
              Property "date" DateTimeType;
              Property "object_type" StringType;
              Property "type" StringType;
              Property "user_id" IntegerType;
              Property "uri" StringType ]));
    Property "external_id" StringType;
    Property "from_agent" BooleanType;
    Property "is_unread" BooleanType;
    Property "language" StringType;
    Property "last_message_datetime" DateTimeType;
    Property "last_received_message_datetime" DateTimeType;
    Property "opened_datetime" DateTimeType;
    Property "priority" StringType;
    Property "snooze_datetime" DateTimeType;
    Property "spam" BooleanType;
    Property "status" StringType;
    Property "subject" StringType;
    Property "tags"
      (ArrayType
         (ObjectType
            [ Property "id" IntegerType;
              Property "name" StringType;
              Property "decoration"
                (ObjectType [ Property "color" StringType ]) ]));
    Property "trashed_datetime" DateTimeType;
    Property "updated_datetime" DateTimeType;
    Property "via" StringType;
    Property "uri" StringType ].

Definition messages : PropertiesList :=
  [ Property "id" IntegerType;
    Property "uri" StringType;
    Property "message_id" StringType;
    Property "ticket_id" IntegerType;
    Property "external_id" StringType;
    Property "public" BooleanType;
    Property "channel" StringType;
    Property "via" StringType;
    Property "source"
      (ObjectType
         [ Property "type" StringType;
           Property "to"
             (ArrayType
                (ObjectType
                   [ Property "name" StringType;
                     Property "address" StringType ]));
           Property "from"
             (ObjectType
                [ Property "name" StringType;
                  Property "address" StringType ]) ]);
    Property "sender" CUSTOMER_SCHEMA;
    Property "integration_id" IntegerType;
    Property "rule_id" IntegerType;
    Property "from_agent" BooleanType;
    Property "receiver" CUSTOMER_SCHEMA;
    Property "subject" StringType;
    Property "body_text" StringType;
    Property "body_html" StringType;
    Property "stripped_text" StringType;
    Property "stripped_html" StringType;
    Property "stripped_signature" StringType;
    Property "created_datetime" DateTimeType;
    Property "sent_datetime" DateTimeType;
    Property "failed_datetime" DateTimeType;
    Property "deleted_datetime" DateTimeType;
    Property "opened_datetime" DateTimeType ].

Definition satisfaction_surveys : PropertiesList :=
  [ Property "id" IntegerType;
    Property "body_text" StringType;
    Property "created_datetime" DateTimeType;
    Property "customer_id" IntegerType;
    Property "score" IntegerType;
    Property "scored_datetime" DateTimeType;
    Property "sent_datetime" DateTimeType;
    Property "should_send_datetime" DateTimeType;
    Property "ticket_id" IntegerType;
    Property "uri" StringType ].

Definition customers : PropertiesList :=
  [ Property "id" IntegerType;
    Property "created_datetime" DateTimeType;
    Property "email" StringType;
    Property "external_id" StringType;
    Property "firstname" StringType;
    Property "language" StringType;
    Property "lastname" StringType;
    Property "name" StringType;
    Property "timezone" StringType;
    Property "updated_datetime" DateTimeType;
    Property "note" StringType;
    Property "active" BooleanType;
    Property "meta"
      (ObjectType [ Property "name_set_via" StringType ]);
    Property "error" StringType ].

Definition integrations : PropertiesList :=
  [ Property "id" IntegerType;
    Property "uri" StringType;
    Property "user" (ObjectType [ Property "id" IntegerType ]);
    Property "type" StringType;
    Property "name" StringType;
    Property "description" StringType;
    Property "meta"
      (ObjectType
         [ Property "shop_name" StringType;
           Property "shop_display_name" StringType;
           Property "shop_domain" StringType;
           Property "shop_plan" StringType;
           Property "shop_id" IntegerType;
           Property "shopify_integration_ids" (ArrayType IntegerType);
           Property "shopify_integration_id" IntegerType;
           Property "shop_integration_id" IntegerType ]);
    Property "created_datetime" DateTimeType;
    Property "updated_datetime" DateTimeType;
    Property "deactivated_datetime" DateTimeType;
    Property "locked_datetime" DateTimeType;
    Property "deleted_datetime" DateTimeType ].

End Schema.

Definition schema (s : StreamClass) : PropertiesList :=
  match s with
  | TicketsStream => Schema.tickets
  | TicketDetailsStream => Schema.ticket_details
  | MessagesStream => Schema.messages
  | SatisfactionSurveysStream => Schema.satisfaction_surveys
  | CustomersStream => Schema.customers
  | IntegreationsStream => Schema.integrations
  end.

(** The top-level field names a schema declares. *)
Definition schema_fields (s : StreamClass) : list string := map fst (schema s).

(** ** Endpoint templates *)

(** The placeholder names of a path template: the text between each [{]
    and the next [}]. *)
Fixpoint placeholders_from (cur : option string) (s : string) : list string :=
  match s with
  | EmptyString => []
  | String c s' =>
      match cur with
      | None =>
          if Ascii.eqb c "{"%char then placeholders_from (Some "") s'
          else placeholders_from None s'
      | Some acc =>
          if Ascii.eqb c "}"%char then acc :: placeholders_from None s'
          else placeholders_from (Some (String.append acc (String c ""))) s'
      end
  end.

Definition placeholders (template : string) : list string :=
  placeholders_from None template.

(** A context provides every placeholder of a template. *)
Definition provides (context : dict) (template : string) : bool :=
  forallb (fun p => match Dict.get p context with Some _ => true | None => false end)
    (placeholders template).

(** ** The record pipeline of the ticket_details stream *)

(** Each item yielded by [parse_response] goes through [post_process]; an
    item is a dict here, since [parse_response] only yields a value it has
    subscripted by a string. *)
Definition post_process_item (context : option dict) (item : json)
  : result dict :=
  match item with
  | JObj row => post_process row context
  | _ => Err TypeError
  end.

Definition transform (resp : json) (context : option dict)
  : result (list dict) :=
  items <- parse_response resp ;;
  mapM (post_process_item context) items.

(** ** Predicates on a response *)

(** [resp["customer"]["integrations"]] when it is there and is a dict. *)
Definition integrations_of (resp : json) : option dict :=
  match resp with
  | JObj top =>
      match Dict.get "customer" top with
      | Some (JObj customer) =>
          match Dict.get "integrations" customer with
          | Some (JObj d) => Some d
          | _ => None
          end
      | _ => None
      end
  | _ => None
  end.

(** A sub-object that carries the discriminator field. *)
Definition has_discriminator (v : json) : bool :=
  match v with
  | JObj o =>
      match Dict.get "__integration_type__" o with
      | Some _ => true
      | None => false
      end
  | _ => false
  end.

(** A sub-object whose discriminator equals ["shopify"]. *)
Definition is_shopify (v : json) : bool :=
  match v with
  | JObj o =>
      match Dict.get "__integration_type__" o with
      | Some ty => eq_str ty "shopify"
      | None => false
      end
  | _ => false
  end.

(** The number of entries of a mapping whose discriminator is ["shopify"]. *)
Definition count_shopify (d : dict) : nat :=
  List.length (filter (fun kv => is_shopify (snd kv)) d).

(** The last entry, in key order, whose discriminator is ["shopify"]. *)
Fixpoint last_shopify (d : dict) : option (string * dict) :=
  match d with
  | [] => None
  | (k, v) :: d' =>
      match last_shopify d' with
      | Some e => Some e
      | None =>
          match v with
          | JObj o => if is_shopify v then Some (k, o) else None
          | _ => None
          end
      end
  end.

(** The four pruned field names. *)
Definition body_fields : list string :=
  ["body_text"; "body_html"; "stripped_text"; "stripped_html"].

Definition lacks_bodies (d : dict) : bool :=
  forallb (fun f => match Dict.get f d with Some _ => false | None => true end)
    body_fields.

Definition is_object (v : json) : bool :=
  match v with
  | JObj _ => true
  | _ => false
  end.

Definition object_lacks_bodies (v : json) : bool :=
  match v with
  | JObj d => lacks_bodies d
  | _ => false
  end.

(** ** Bookmarks

    The state tracker belongs to the extraction framework and to the base
    class, neither of which is among the sources; the definitions of this
    part follow the specification. *)

(** Structural equality of values, to compare bookmark keys. *)
Fixpoint json_eqb (a b : json) : bool :=
  match a, b with
  | JNull, JNull => true
  | JBool x, JBool y => Bool.eqb x y
  | JInt x, JInt y => Z.eqb x y
  | JFloat m e, JFloat m' e' => Z.eqb m m' && Z.eqb e e'
  | JStr x, JStr y => String.eqb x y
  | JArr xs, JArr ys =>
      (fix items (xs ys : list json) : bool :=
         match xs, ys with
         | [], [] => true
         | x :: xs', y :: ys' => json_eqb x y && items xs' ys'
         | _, _ => false
         end) xs ys
  | JObj xs, JObj ys =>
      (fix fields (xs ys : list (string * json)) : bool :=
         match xs, ys with
         | [], [] => true
         | (k, x) :: xs', (k', y) :: ys' =>
             String.eqb k k' && json_eqb x y && fields xs' ys'
         | _, _ => false
         end) xs ys
  | _, _ => false
  end.

(** Modelled from the spec: the part of a parent context that partitions
    the state of a stream (section 4.4, "State partitioning"; the tracker is
    framework code).  With an empty [state_partitioning_keys] nothing of the
    context is kept; a stream that declares none is partitioned by the
    whole context. *)
Definition partition_context (s : StreamClass) (context : dict) : dict :=
  match state_partitioning_keys s with
  | None => context
  | Some ks => filter (fun kv => Dict.mem (fst kv) ks) context
  end.

(** Modelled from the spec: the key of a bookmark in the persisted state
    (section 6, "a mapping from stream name (optionally suffixed by
    partition key)"; the state layout is framework code). *)
Definition stream_key (s : StreamClass) (context : dict) : string * dict :=
  (name s, partition_context s context).

Definition stream_key_eqb (a b : string * dict) : bool :=
  String.eqb (fst a) (fst b) && json_eqb (JObj (snd a)) (JObj (snd b)).

Inductive ReplicationMethod : Type :=
| INCREMENTAL
| FULL_TABLE.

(** Modelled from the spec: a stream supports incremental sync when it
    declares a replication key and is full-refresh-only otherwise (section
    2, component 5; the decision is taken by the framework). *)
Definition replication_method (s : StreamClass) : ReplicationMethod :=
  match replication_key s with
  | Some _ => INCREMENTAL
  | None => FULL_TABLE
  end.

Section Tracker.

(** Replication-key values and their strict order. *)
Variable V : Type.
Variable gtb : V -> V -> bool.

Definition bookmarks : Type := list ((string * dict) * V).

Fixpoint lookup (k : string * dict) (st : bookmarks) : option V :=
  match st with
  | [] => None
  | (k', v) :: st' => if stream_key_eqb k k' then Some v else lookup k st'
  end.

Fixpoint raise_mark (k : string * dict) (v : V) (st : bookmarks) : bookmarks :=
  match st with
  | [] => [(k, v)]
  | (k', v') :: st' =>
      if stream_key_eqb k k'
      then (k', if gtb v v' then v else v') :: st'
      else (k', v') :: raise_mark k v st'
  end.

(** Modelled from the spec: [observe(streamKey, candidateValue)] raises
    the high-water mark when the candidate is greater, and is a no-op for
    a full-refresh-only stream (section 4.4; the tracker is framework
    code). *)
Definition observe (s : StreamClass) (context : dict) (v : V)
  (st : bookmarks) : bookmarks :=
  match replication_method s with
  | FULL_TABLE => st
  | INCREMENTAL => raise_mark (stream_key s context) v st
  end.

(** Modelled from the spec: [resume(streamKey)] gives the bookmark or
    nothing, and nothing for a full-refresh-only stream (section 4.4; the
    tracker is framework code). *)
Definition resume (s : StreamClass) (context : dict) (st : bookmarks)
  : option V :=
  match replication_method s with
  | FULL_TABLE => None
  | INCREMENTAL => lookup (stream_key s context) st
  end.

End Tracker.

Arguments lookup {V} k st.
Arguments raise_mark {V} gtb k v st.
Arguments observe {V} gtb s context v st.
Arguments resume {V} s context st.

(** ** The outcome of the key swap, written directly *)

(** The entries whose discriminator is not ["shopify"]. *)
Definition others (d : dict) : dict :=
  filter (fun kv => negb (is_shopify (snd kv))) d.

(** What ends up under ["shopify"] once the entries [r] have been visited:
    the last matching one of [r], with its key stored as ["id"], or what
    was there before ([s]) when none matches. *)
Definition shopify_slot (s r : dict) : dict :=
  match last_shopify r with
  | Some (k, o) => [("shopify", JObj (Dict.set "id" (JStr k) o))]
  | None => s
  end.

(** The slot holds nothing yet, or the entry written by an earlier turn. *)
Definition slot (s : dict) : Prop :=
  s = [] \/ exists x, s = [("shopify", x)].

(** ** Sample data *)

Definition sample_message (n : Z) : json :=
  JObj [ ("id", JInt n);
         ("body_text", JStr "hello");
         ("body_html", JStr "<p>hello</p>");
         ("stripped_text", JStr "hello");
         ("stripped_html", JStr "<p>hello</p>") ].

Definition sample_row : dict :=
  [ ("id", JInt 7);
    ("body_html", JStr "<p>hi</p>");
    ("body_text", JStr "hi");
    ("stripped_text", JStr "hi");
    ("stripped_html", JStr "<p>hi</p>");
    ("messages", JArr [sample_message 1; sample_message 2]) ].

Definition shopify_entry (shop : string) : dict :=
  [ ("__integration_type__", JStr "shopify");
    ("shop", JStr shop);
    ("orders", JArr []) ].

Definition email_entry : dict :=
  [ ("__integration_type__", JStr "email");
    ("address", JStr "help@example.com") ].

(** A ticket-detail body around a given integrations mapping. *)
Definition response_with (integrations : dict) : json :=
  JObj [ ("id", JInt 7);
         ("customer",
           JObj [ ("id", JInt 3);
                  ("email", JStr "jane@example.com");
                  ("integrations", JObj integrations) ]);
         ("subject", JStr "Where is my order?");
         ("messages", JArr [sample_message 1; sample_message 2]) ].

Definition one_shopify : dict :=
  [ ("82", JObj email_entry); ("123", JObj (shopify_entry "a")) ].

Definition two_shopify : dict :=
  [ ("123", JObj (shopify_entry "a"));
    ("82", JObj email_entry);
    ("456", JObj (shopify_entry "b")) ].

(** A mapping where an entry of another type sits under the key
    ["shopify"], after the matching one. *)
Definition shopify_key_taken : dict :=
  [ ("123", JObj (shopify_entry "a")); ("shopify", JObj email_entry) ].

(** The same with the entry under ["shopify"] first. *)
Definition shopify_key_taken_first : dict :=
  [ ("shopify", JObj email_entry); ("123", JObj (shopify_entry "a")) ].

(** A mapping with an entry that has no discriminator field. *)
Definition untyped_entry : dict :=
  [ ("123", JObj (shopify_entry "a")); ("82", JObj [("address", JStr "x")]) ].

(** ** Further predicates and accessors *)

(** A message without the four body fields; other values as they are. *)
Definition strip_bodies (m : json) : json :=
  match m with
  | JObj d => JObj (pop_bodies d)
  | _ => m
  end.

(** The values of ["messages"] the loop of [post_process] gets through: a
    list of dicts, or a dict or string with nothing to iterate over. *)
Definition iterable_of_dicts (m : json) : bool :=
  match m with
  | JArr ms => forallb is_object ms
  | JObj [] => true
  | JStr EmptyString => true
  | _ => false
  end.

(** The value found by following field names from a value. *)
Fixpoint value_at (fields : list string) (v : json) : option json :=
  match fields with
  | [] => Some v
  | f :: fields' =>
      match v with
      | JObj d =>
          match Dict.get f d with
          | Some v' => value_at fields' v'
          | None => None
          end
      | _ => None
      end
  end.

(** The declared type found by following property names from a type. *)
Fixpoint type_at (fields : list string) (t : jtype) : option jtype :=
  match fields with
  | [] => Some t
  | f :: fields' =>
      match t with
      | ObjectType ps =>
          (fix find (ps : list (string * jtype)) : option jtype :=
             match ps with
             | [] => None
             | (n, t') :: ps' =>
                 if String.eqb f n then type_at fields' t' else find ps'
             end) ps
      | _ => None
      end
  end.

(** No object type, at any depth, declares a property name twice. *)
Fixpoint unique_props (t : jtype) : bool :=
  match t with
  | ObjectType ps =>
      Dict.nodupb (map fst ps)
      && (fix all (ps : list (string * jtype)) : bool :=
            match ps with
            | [] => true
            | (_, t') :: ps' => unique_props t' && all ps'
            end) ps
  | ArrayType t' => unique_props t'
  | _ => true
  end.


(** The exceptions [post_process] can end with. *)
Definition post_process_exn (e : exn) : bool :=
  match e with
  | KeyError k => String.eqb k "messages"
  | TypeError | AttributeError => true
  | _ => false
  end.

Definition no_shopify : dict :=
  [ ("82", JObj email_entry);
    ("91", JObj [("__integration_type__", JStr "aircall")]) ].

(** Equality of stream classes. *)
Definition stream_eqb (a b : StreamClass) : bool :=
  match a, b with
  | TicketsStream, TicketsStream
  | TicketDetailsStream, TicketDetailsStream
  | MessagesStream, MessagesStream
  | SatisfactionSurveysStream, SatisfactionSurveysStream
  | CustomersStream, CustomersStream
  | IntegreationsStream, IntegreationsStream => true
  | _, _ => false
  end.

(** A field declared with [IntegerType] at the top level of a schema. *)
Definition declared_integer (s : StreamClass) (k : string) : bool :=
  match type_at [k] (ObjectType (schema s)) with
  | Some IntegerType => true
  | _ => false
  end.

(** * Properties *)

(** ** Dict lemmas *)

Module DictFacts.

Lemma get_set_same (k : string) (v : json) (d : dict) :
  Dict.get k (Dict.set k v d) = Some v.
Proof.
  induction d as [|[k' v'] d IH]; simpl.
  - now rewrite String.eqb_refl.
  - destruct (String.eqb k k') eqn:E; simpl.
    + now rewrite String.eqb_refl.
    + now rewrite E.
Qed.

Lemma get_set_other (k k' : string) (v : json) (d : dict) :
  k <> k' -> Dict.get k' (Dict.set k v d) = Dict.get k' d.
Proof.
  intros Hne.
  assert (Hkk' : String.eqb k' k = false) by (apply String.eqb_neq; congruence).
  induction d as [|[k0 v0] d IH]; simpl.
  - now rewrite Hkk'.
  - destruct (String.eqb k k0) eqn:E; simpl.
    + apply String.eqb_eq in E. subst k0. now rewrite Hkk'.
    + now rewrite IH.
Qed.

Lemma get_remove_same (k : string) (d : dict) :
  Dict.get k (Dict.remove k d) = None.
Proof.
  unfold Dict.remove.
  induction d as [|[k' v'] d IH]; simpl; [reflexivity|].
  destruct (String.eqb k k') eqn:E; simpl; [exact IH|].
  now rewrite E.
Qed.

Lemma get_remove_other (k k' : string) (d : dict) :
  k <> k' -> Dict.get k' (Dict.remove k d) = Dict.get k' d.
Proof.
  intros Hne. unfold Dict.remove.
  induction d as [|[k0 v0] d IH]; simpl; [reflexivity|].
  destruct (String.eqb k k0) eqn:E; simpl.
  - apply String.eqb_eq in E. subst k0.
    replace (String.eqb k' k) with false
      by (symmetry; apply String.eqb_neq; congruence).
    exact IH.
  - now rewrite IH.
Qed.

Lemma keys_set_present (k : string) (v : json) (d : dict) :
  Dict.get k d <> None -> Dict.keys (Dict.set k v d) = Dict.keys d.
Proof.
  unfold Dict.keys.
  induction d as [|[k' v'] d IH]; simpl; [congruence|].
  destruct (String.eqb k k') eqn:E; simpl; intros H.
  - apply String.eqb_eq in E. now subst.
  - now rewrite IH.
Qed.

Lemma keys_remove (k : string) (d : dict) :
  Dict.keys (Dict.remove k d)
  = filter (fun k' => negb (String.eqb k k')) (Dict.keys d).
Proof.
  unfold Dict.keys, Dict.remove.
  induction d as [|[k' v'] d IH]; simpl; [reflexivity|].
  destruct (String.eqb k k'); simpl; now rewrite IH.
Qed.

Lemma get_in_keys (k : string) (d : dict) :
  Dict.get k d <> None <-> In k (Dict.keys d).
Proof.
  unfold Dict.keys.
  induction d as [|[k' v'] d IH]; simpl; [tauto|].
  destruct (String.eqb k k') eqn:E.
  - apply String.eqb_eq in E. subst. split; [auto | congruence].
  - apply String.eqb_neq in E. rewrite IH. split; [auto|].
    intros [H|H]; [congruence | exact H].
Qed.

Lemma mem_In (k : string) (ks : list string) :
  Dict.mem k ks = true <-> In k ks.
Proof.
  unfold Dict.mem. rewrite existsb_exists. split.
  - intros [x [Hin He]]. apply String.eqb_eq in He. now subst.
  - intros H. exists k. split; [exact H | apply String.eqb_refl].
Qed.

Lemma nodupb_NoDup (ks : list string) :
  Dict.nodupb ks = true -> NoDup ks.
Proof.
  induction ks as [|k ks IH]; simpl; intros H; constructor.
  - apply andb_true_iff in H. destruct H as [H _].
    apply negb_true_iff in H. intros Hin.
    apply mem_In in Hin. congruence.
  - apply IH. now apply andb_true_iff in H.
Qed.

Lemma wfb_wf (d : dict) : Dict.wfb d = true -> Dict.wf d.
Proof. apply nodupb_NoDup. Qed.

Lemma keys_set_absent (k : string) (v : json) (d : dict) :
  Dict.get k d = None -> Dict.keys (Dict.set k v d) = Dict.keys d ++ [k].
Proof.
  unfold Dict.keys.
  induction d as [|[k' v'] d IH]; simpl; [reflexivity|].
  destruct (String.eqb k k') eqn:E; simpl; intros H; [discriminate|].
  now rewrite IH.
Qed.

(** The operations keep the keys of a dict distinct. *)
Lemma wf_remove (k : string) (d : dict) :
  Dict.wf d -> Dict.wf (Dict.remove k d).
Proof.
  unfold Dict.wf. rewrite keys_remove. apply NoDup_filter.
Qed.

Lemma wf_set (k : string) (v : json) (d : dict) :
  Dict.wf d -> Dict.wf (Dict.set k v d).
Proof.
  unfold Dict.wf. intros H.
  destruct (Dict.get k d) as [x|] eqn:E.
  - rewrite keys_set_present by congruence. exact H.
  - rewrite keys_set_absent by exact E.
    apply NoDup_app; [exact H | repeat constructor; intros [] |].
    intros a Ha [<-|[]]. apply get_in_keys in Ha. congruence.
Qed.

End DictFacts.

(** ** The four pops *)

Lemma get_pop_bodies_other (k : string) (d : dict) :
  Dict.mem k body_fields = false ->
  Dict.get k (pop_bodies d) = Dict.get k d.
Proof.
  intros H. unfold Dict.mem, body_fields in H. simpl in H.
  repeat (apply orb_false_iff in H; destruct H as [?H H]).
  unfold pop_bodies, Dict.pop_default.
  rewrite !DictFacts.get_remove_other; try reflexivity;
    intros E; subst k; discriminate.
Qed.

Lemma get_pop_bodies_body (k : string) (d : dict) :
  Dict.mem k body_fields = true ->
  Dict.get k (pop_bodies d) = None.
Proof.
  intros H. apply DictFacts.mem_In in H.
  unfold pop_bodies, Dict.pop_default.
  simpl in H. destruct H as [<-|[<-|[<-|[<-|[]]]]].
  - rewrite !DictFacts.get_remove_other by discriminate.
    apply DictFacts.get_remove_same.
  - rewrite !DictFacts.get_remove_other by discriminate.
    apply DictFacts.get_remove_same.
  - rewrite DictFacts.get_remove_other by discriminate.
    apply DictFacts.get_remove_same.
  - apply DictFacts.get_remove_same.
Qed.

Lemma lacks_bodies_pop_bodies (d : dict) : lacks_bodies (pop_bodies d) = true.
Proof.
  unfold lacks_bodies, body_fields. simpl.
  rewrite !get_pop_bodies_body by reflexivity. reflexivity.
Qed.

Lemma keys_pop_bodies (d : dict) :
  Dict.keys (pop_bodies d)
  = filter (fun k => negb (Dict.mem k body_fields)) (Dict.keys d).
Proof.
  unfold pop_bodies, Dict.pop_default.
  rewrite !DictFacts.keys_remove.
  induction (Dict.keys d) as [|k ks IH]; [reflexivity|].
  cbn [filter Dict.mem body_fields existsb].
  rewrite (String.eqb_sym k "body_text"), (String.eqb_sym k "body_html"),
    (String.eqb_sym k "stripped_text"), (String.eqb_sym k "stripped_html").
  destruct (String.eqb "body_text" k); cbn [negb filter orb]; [exact IH|].
  destruct (String.eqb "body_html" k); cbn [negb filter orb]; [exact IH|].
  destruct (String.eqb "stripped_text" k); cbn [negb filter orb]; [exact IH|].
  destruct (String.eqb "stripped_html" k); cbn [negb filter orb]; [exact IH|].
  f_equal. exact IH.
Qed.

(** ** get_url_params *)

(** C8: whatever the context and the page token, the ticket-detail request
    carries no URL parameter: [get_url_params] returns the empty mapping. *)
Theorem get_url_params_empty (context : option dict) (next_page_token : option json) :
  get_url_params context next_page_token = [].
Proof. reflexivity. Qed.

(** ** get_child_context *)

Lemma placeholders_ticket_details :
  placeholders (path TicketDetailsStream) = ["ticket_id"].
Proof. reflexivity. Qed.

Lemma placeholders_messages :
  placeholders (path MessagesStream) = ["ticket_id"].
Proof. reflexivity. Qed.

(** C5, as the code has it: a parent record with an ["id"] gives the one
    context [{"ticket_id": record["id"]}], which provides the only
    placeholder of the two child paths; a record without ["id"] makes the
    subscript raise [KeyError("id")].  The code has no [ContextError]. *)
Theorem get_child_context_spec (record : dict) (context : option dict) :
  placeholders (path TicketDetailsStream) = ["ticket_id"] /\
  placeholders (path MessagesStream) = ["ticket_id"] /\
  match Dict.get "id" record with
  | Some id =>
      get_child_context record context = Ok [("ticket_id", id)] /\
      provides [("ticket_id", id)] (path TicketDetailsStream) = true /\
      provides [("ticket_id", id)] (path MessagesStream) = true
  | None => get_child_context record context = Err (KeyError "id")
  end.
Proof.
  split; [reflexivity|]. split; [reflexivity|].
  unfold get_child_context, Dict.getitem.
  destruct (Dict.get "id" record) as [id|]; simpl; auto.
Qed.

(** C5 as stated fails: on a parent record without ["id"] the error is
    Python's [KeyError], not a [ContextError]. *)
Lemma get_child_context_no_ContextError :
  let record := [("uri", JStr "/api/tickets/7")] in
  Dict.get "id" record = None /\
  get_child_context record None = Err (KeyError "id") /\
  get_child_context record None <> Err ContextError.
Proof. cbv zeta. repeat split. discriminate. Qed.

(** ** post_process *)

Lemma mapM_pop_message_objects (ms : list json) :
  forallb is_object ms = true ->
  exists ms',
    mapM pop_message ms = Ok ms' /\
    List.length ms' = List.length ms /\
    forallb object_lacks_bodies ms' = true.
Proof.
  induction ms as [|m ms IH]; simpl; intros H.
  - exists []. auto.
  - apply andb_true_iff in H. destruct H as [Hm Hms].
    destruct (IH Hms) as [ms' [E [Hlen Hall]]].
    destruct m; try discriminate. simpl. rewrite E. simpl.
    eexists. split; [reflexivity|]. split; simpl.
    + now rewrite Hlen.
    + now rewrite lacks_bodies_pop_bodies, Hall.
Qed.

Lemma lacks_bodies_set_messages (v : json) (d : dict) :
  lacks_bodies d = true -> lacks_bodies (Dict.set "messages" v d) = true.
Proof.
  unfold lacks_bodies, body_fields. simpl.
  rewrite !DictFacts.get_set_other by discriminate. auto.
Qed.

(** C3: on a ticket-detail record whose ["messages"] is an array of objects
    (as it is when every element carries the four body fields),
    [post_process] returns a record with none of [body_text], [body_html],
    [stripped_text], [stripped_html] at the top level and none of them in
    any element of ["messages"], which keeps its length.  Whether the four
    fields are present beforehand does not matter. *)
Theorem post_process_prunes_bodies
  (row : dict) (context : option dict) (ms : list json) :
  Dict.get "messages" row = Some (JArr ms) ->
  forallb is_object ms = true ->
  exists row' ms',
    post_process row context = Ok row' /\
    lacks_bodies row' = true /\
    Dict.get "messages" row' = Some (JArr ms') /\
    List.length ms' = List.length ms /\
    forallb object_lacks_bodies ms' = true.
Proof.
  intros Hget Hobj.
  destruct (mapM_pop_message_objects ms Hobj) as [ms' [E [Hlen Hall]]].
  exists (Dict.set "messages" (JArr ms') (pop_bodies row)), ms'.
  unfold post_process, Dict.getitem.
  rewrite get_pop_bodies_other by reflexivity.
  rewrite Hget. simpl. rewrite E. simpl.
  split; [reflexivity|]. split.
  - apply lacks_bodies_set_messages, lacks_bodies_pop_bodies.
  - split; [apply DictFacts.get_set_same | auto].
Qed.

Lemma post_process_prunes_bodies_witness :
  exists row' ms',
    post_process sample_row None = Ok row' /\
    lacks_bodies row' = true /\
    Dict.get "messages" row' = Some (JArr ms') /\
    List.length ms' = 2%nat /\
    forallb object_lacks_bodies ms' = true.
Proof.
  apply (post_process_prunes_bodies sample_row None
           [sample_message 1; sample_message 2]); reflexivity.
Defined.

(** C9: a record without a ["messages"] key makes [post_process] raise
    [KeyError("messages")] instead of returning a record, and the
    ticket_details schema declares no ["messages"] field. *)
Theorem post_process_missing_messages (row : dict) (context : option dict) :
  Dict.get "messages" row = None ->
  post_process row context = Err (KeyError "messages") /\
  Dict.mem "messages" (schema_fields TicketDetailsStream) = false.
Proof.
  intros H. split; [|reflexivity].
  unfold post_process, Dict.getitem.
  rewrite get_pop_bodies_other by reflexivity.
  now rewrite H.
Qed.

Lemma post_process_missing_messages_witness :
  post_process [("id", JInt 7); ("body_text", JStr "hi")] None
    = Err (KeyError "messages") /\
  Dict.mem "messages" (schema_fields TicketDetailsStream) = false.
Proof.
  apply (post_process_missing_messages
           [("id", JInt 7); ("body_text", JStr "hi")] None).
  reflexivity.
Defined.

(** ** Bookmarks of the streams *)

(** A stream that declares no partitioning keys is keyed by the whole
    parent context, so two parents give two bookmarks. *)
Lemma stream_key_unpartitioned_differs :
  stream_key TicketsStream [("ticket_id", JInt 1)]
  <> stream_key TicketsStream [("ticket_id", JInt 2)].
Proof. discriminate. Qed.

(** C6: both child streams of tickets declare the empty list of state
    partitioning keys, so the bookmark key of each is its stream name alone:
    every parent context gives the same key, and any bookmark state is read
    at the same entry for all of them. *)
Theorem child_streams_share_one_bookmark :
  parent_stream_type TicketDetailsStream = Some TicketsStream /\
  parent_stream_type MessagesStream = Some TicketsStream /\
  state_partitioning_keys TicketDetailsStream = Some [] /\
  state_partitioning_keys MessagesStream = Some [] /\
  (forall c : dict, stream_key TicketDetailsStream c = ("ticket_details", [])) /\
  (forall c : dict, stream_key MessagesStream c = ("messages", [])) /\
  (forall c1 c2 : dict,
      stream_key TicketDetailsStream c1 = stream_key TicketDetailsStream c2) /\
  (forall c1 c2 : dict,
      stream_key MessagesStream c1 = stream_key MessagesStream c2) /\
  (forall (V : Type) (st : bookmarks V) (c1 c2 : dict),
      lookup (stream_key TicketDetailsStream c1) st
      = lookup (stream_key TicketDetailsStream c2) st) /\
  (forall (V : Type) (st : bookmarks V) (c1 c2 : dict),
      lookup (stream_key MessagesStream c1) st
      = lookup (stream_key MessagesStream c2) st).
Proof.
  assert (Hk : forall s c, state_partitioning_keys s = Some [] ->
                           stream_key s c = (name s, [])).
  { intros s c Hs. unfold stream_key, partition_context. rewrite Hs.
    f_equal. induction c as [|kv c IH]; [reflexivity | exact IH]. }
  repeat split; intros; rewrite ?Hk by reflexivity; reflexivity.
Qed.

(** C7: satisfaction_surveys and customers declare no replication key, so
    they are full-refresh streams: observing a value leaves the bookmark
    state as it is and resuming gives no bookmark, whatever the state holds;
    tickets declares ["updated_datetime"] and is incremental: an observed
    value is the bookmark the stream resumes from. *)
Theorem replication_of_streams :
  replication_key SatisfactionSurveysStream = None /\
  replication_key CustomersStream = None /\
  replication_method SatisfactionSurveysStream = FULL_TABLE /\
  replication_method CustomersStream = FULL_TABLE /\
  (forall (V : Type) (gtb : V -> V -> bool) (c : dict) (v : V) (st : bookmarks V),
      observe gtb SatisfactionSurveysStream c v st = st /\
      observe gtb CustomersStream c v st = st) /\
  (forall (V : Type) (c : dict) (st : bookmarks V),
      resume SatisfactionSurveysStream c st = None /\
      resume CustomersStream c st = None) /\
  replication_key TicketsStream = Some "updated_datetime" /\
  replication_method TicketsStream = INCREMENTAL /\
  (forall (V : Type) (gtb : V -> V -> bool) (v : V),
      resume TicketsStream [] (observe gtb TicketsStream [] v []) = Some v).
Proof. repeat split. Qed.

(** ** parse_response: shape of a successful run *)

Lemma parse_response_intro (top customer integ integ' : dict) :
  Dict.get "customer" top = Some (JObj customer) ->
  Dict.get "integrations" customer = Some (JObj integ) ->
  swap_keys (Dict.keys integ) integ = Ok integ' ->
  parse_response (JObj top)
  = Ok [JObj (Dict.set "customer"
                (JObj (Dict.set "integrations" (JObj integ') customer)) top)].
Proof.
  intros Hc Hi Hs. unfold parse_response. simpl. unfold Dict.getitem.
  rewrite Hc. simpl. unfold Dict.getitem. rewrite Hi. simpl.
  rewrite Hs. reflexivity.
Qed.

Lemma parse_response_inv (resp : json) (items : list json) :
  parse_response resp = Ok items ->
  exists top customer integ integ',
    resp = JObj top /\
    Dict.get "customer" top = Some (JObj customer) /\
    Dict.get "integrations" customer = Some (JObj integ) /\
    swap_keys (Dict.keys integ) integ = Ok integ' /\
    items = [JObj (Dict.set "customer"
                     (JObj (Dict.set "integrations" (JObj integ') customer)) top)].
Proof.
  unfold parse_response. intros H.
  destruct resp as [| | | | | |top]; try discriminate.
  simpl in H. unfold Dict.getitem in H.
  destruct (Dict.get "customer" top) as [c|] eqn:Hc; [|discriminate].
  simpl in H.
  destruct c as [| | | | | |customer]; try discriminate.
  simpl in H. unfold Dict.getitem in H.
  destruct (Dict.get "integrations" customer) as [i|] eqn:Hi; [|discriminate].
  simpl in H.
  destruct i as [| | | | | |integ]; try discriminate.
  simpl in H.
  destruct (swap_keys (Dict.keys integ) integ) as [integ'|e] eqn:Hs;
    [|discriminate].
  simpl in H. injection H as <-.
  exists top, customer, integ, integ'. auto.
Qed.

Lemma integrations_of_set (top customer integ' : dict) :
  integrations_of
    (JObj (Dict.set "customer"
             (JObj (Dict.set "integrations" (JObj integ') customer)) top))
  = Some integ'.
Proof.
  unfold integrations_of.
  now rewrite DictFacts.get_set_same, DictFacts.get_set_same.
Qed.

Lemma integrations_of_inv (resp : json) (integ : dict) :
  integrations_of resp = Some integ ->
  exists top customer,
    resp = JObj top /\
    Dict.get "customer" top = Some (JObj customer) /\
    Dict.get "integrations" customer = Some (JObj integ).
Proof.
  unfold integrations_of. intros H.
  destruct resp as [| | | | | |top]; try discriminate.
  destruct (Dict.get "customer" top) as [[| | | | | |customer]|] eqn:Hc;
    try discriminate.
  destruct (Dict.get "integrations" customer) as [[| | | | | |d]|] eqn:Hi;
    try discriminate.
  injection H as ->. exists top, customer. auto.
Qed.

(** ** parse_response: the loop never raises [TransformError] *)

Lemma swap_key_not_TransformError (key : string) (d : dict) :
  swap_key key d <> Err TransformError.
Proof.
  unfold swap_key, Dict.getitem, Dict.pop.
  destruct (Dict.get key d) as [entry|]; simpl; [|discriminate].
  destruct entry as [| | | | | |o]; simpl; try discriminate.
  unfold Dict.getitem.
  destruct (Dict.get "__integration_type__" o) as [ty|]; simpl; [|discriminate].
  destruct (eq_str ty "shopify"); [|discriminate].
  simpl. rewrite DictFacts.get_set_same. simpl. discriminate.
Qed.

Lemma swap_keys_not_TransformError (ks : list string) (d : dict) :
  swap_keys ks d <> Err TransformError.
Proof.
  revert d. induction ks as [|key ks IH]; simpl; intros d; [discriminate|].
  pose proof (swap_key_not_TransformError key d) as Hk.
  destruct (swap_key key d) as [d'|e]; simpl; [apply IH | congruence].
Qed.

Lemma parse_response_not_TransformError (resp : json) :
  parse_response resp <> Err TransformError.
Proof.
  unfold parse_response.
  destruct resp as [| | | | | |top]; simpl; try discriminate.
  unfold Dict.getitem.
  destruct (Dict.get "customer" top) as [c|]; simpl; [|discriminate].
  destruct c as [| | | | | |customer]; simpl; try discriminate.
  unfold Dict.getitem.
  destruct (Dict.get "integrations" customer) as [i|]; simpl; [|discriminate].
  destruct i as [| | | | | |integ]; simpl; try discriminate.
  pose proof (swap_keys_not_TransformError (Dict.keys integ) integ) as Hs.
  destruct (swap_keys (Dict.keys integ) integ); simpl; congruence.
Qed.

(** ** parse_response: the loop on a mapping without a ["shopify"] key *)

Lemma get_app_notin (k : string) (n d : dict) :
  ~ In k (Dict.keys n) -> Dict.get k (n ++ d) = Dict.get k d.
Proof.
  unfold Dict.keys. induction n as [|[k' v'] n IH]; simpl; intros H; [reflexivity|].
  destruct (String.eqb k k') eqn:E.
  - apply String.eqb_eq in E. subst. tauto.
  - apply IH. tauto.
Qed.

Lemma remove_notin (k : string) (d : dict) :
  ~ In k (Dict.keys d) -> Dict.remove k d = d.
Proof.
  unfold Dict.keys, Dict.remove.
  induction d as [|[k' v'] d IH]; simpl; intros H; [reflexivity|].
  destruct (String.eqb k k') eqn:E; simpl.
  - apply String.eqb_eq in E. subst. tauto.
  - f_equal. apply IH. tauto.
Qed.

Lemma remove_app (k : string) (a b : dict) :
  Dict.remove k (a ++ b) = Dict.remove k a ++ Dict.remove k b.
Proof. apply filter_app. Qed.

Lemma set_app_notin (k : string) (v : json) (n d : dict) :
  ~ In k (Dict.keys n) -> Dict.set k v (n ++ d) = n ++ Dict.set k v d.
Proof.
  unfold Dict.keys. induction n as [|[k' v'] n IH]; simpl; intros H; [reflexivity|].
  destruct (String.eqb k k') eqn:E.
  - apply String.eqb_eq in E. subst. tauto.
  - f_equal. apply IH. tauto.
Qed.

Lemma keys_app (a b : dict) : Dict.keys (a ++ b) = Dict.keys a ++ Dict.keys b.
Proof. apply map_app. Qed.

Lemma set_shopify_slot (v : json) (s : dict) :
  slot s -> Dict.set "shopify" v s = [("shopify", v)].
Proof. intros [->|[x ->]]; reflexivity. Qed.

Lemma remove_slot (k : string) (s : dict) :
  k <> "shopify" -> slot s -> Dict.remove k s = s.
Proof.
  intros Hk [->|[x ->]]; [reflexivity|].
  unfold Dict.remove. simpl.
  apply String.eqb_neq in Hk. now rewrite Hk.
Qed.

Lemma is_shopify_has_discriminator (v : json) :
  is_shopify v = true -> has_discriminator v = true.
Proof.
  destruct v as [| | | | | |o]; simpl; try discriminate.
  destruct (Dict.get "__integration_type__" o); [reflexivity | discriminate].
Qed.

Lemma swap_key_other (k : string) (v : json) (d : dict) :
  Dict.get k d = Some v ->
  has_discriminator v = true ->
  is_shopify v = false ->
  swap_key k d = Ok d.
Proof.
  intros Hg Hd Hs. unfold swap_key, Dict.getitem. rewrite Hg. simpl.
  destruct v as [| | | | | |o]; simpl in *; try discriminate.
  unfold Dict.getitem.
  destruct (Dict.get "__integration_type__" o) as [ty|]; [|discriminate].
  simpl. now rewrite Hs.
Qed.

Lemma swap_key_match (k : string) (o : dict) (n r s : dict) :
  ~ In k (Dict.keys n) -> ~ In k (Dict.keys r) -> k <> "shopify" ->
  ~ In "shopify" (Dict.keys n) -> ~ In "shopify" (Dict.keys r) ->
  slot s ->
  is_shopify (JObj o) = true ->
  swap_key k (n ++ (k, JObj o) :: r ++ s)
  = Ok (n ++ r ++ [("shopify", JObj (Dict.set "id" (JStr k) o))]).
Proof.
  intros Hkn Hkr Hks Hsn Hsr Hslot Hm.
  assert (Hget : Dict.get k (n ++ (k, JObj o) :: r ++ s) = Some (JObj o)).
  { rewrite get_app_notin by exact Hkn. simpl. now rewrite String.eqb_refl. }
  assert (Hrem : Dict.remove k (n ++ (k, JObj o) :: r ++ s) = n ++ r ++ s).
  { rewrite remove_app, (remove_notin _ _ Hkn).
    change ((k, JObj o) :: r ++ s) with ([(k, JObj o)] ++ r ++ s).
    rewrite !remove_app, (remove_notin _ _ Hkr), (remove_slot _ _ Hks Hslot).
    unfold Dict.remove. simpl. now rewrite String.eqb_refl. }
  assert (Hset : forall x, Dict.set "shopify" x (n ++ r ++ s)
                           = n ++ r ++ [("shopify", x)]).
  { intros x. rewrite !set_app_notin by assumption.
    now rewrite set_shopify_slot. }
  unfold swap_key, Dict.getitem, Dict.pop. rewrite Hget. simpl.
  simpl in Hm. unfold Dict.getitem.
  destruct (Dict.get "__integration_type__" o) as [ty|]; [|discriminate].
  simpl. rewrite Hm. simpl. rewrite Hrem, Hset.
  rewrite !get_app_notin by assumption. simpl.
  rewrite !set_app_notin by assumption. reflexivity.
Qed.

Lemma swap_keys_loop (r : dict) :
  forall n s : dict,
    NoDup (Dict.keys (n ++ r)) ->
    ~ In "shopify" (Dict.keys (n ++ r)) ->
    forallb has_discriminator (map snd r) = true ->
    slot s ->
    swap_keys (Dict.keys r) (n ++ r ++ s)
    = Ok (n ++ others r ++ shopify_slot s r).
Proof.
  induction r as [|[k v] r IH]; intros n s Hnd Hsh Hdisc Hslot.
  - reflexivity.
  - rewrite keys_app in Hnd, Hsh. simpl in Hnd, Hsh, Hdisc.
    apply andb_true_iff in Hdisc. destruct Hdisc as [Hv Hdisc].
    pose proof (NoDup_remove_2 _ _ _ Hnd) as Hk.
    pose proof (NoDup_remove_1 _ _ _ Hnd) as Hnd'.
    assert (Hkn : ~ In k (Dict.keys n)) by (intros H; apply Hk, in_or_app; auto).
    assert (Hkr : ~ In k (Dict.keys r)) by (intros H; apply Hk, in_or_app; auto).
    assert (Hks : k <> "shopify")
      by (intros ->; apply Hsh, in_or_app; right; left; reflexivity).
    assert (Hsn : ~ In "shopify" (Dict.keys n))
      by (intros H; apply Hsh, in_or_app; auto).
    assert (Hsr : ~ In "shopify" (Dict.keys r))
      by (intros H; apply Hsh, in_or_app; right; right; exact H).
    cbn [Dict.keys map fst swap_keys]. fold (Dict.keys r).
    destruct (is_shopify v) eqn:Hm.
    + destruct v as [| | | | | |o]; try discriminate.
      change (((k, JObj o) :: r) ++ s) with ((k, JObj o) :: r ++ s).
      rewrite (swap_key_match k o n r s Hkn Hkr Hks Hsn Hsr Hslot Hm). simpl bind.
      rewrite IH.
      * unfold others, shopify_slot. cbn [filter snd last_shopify].
        rewrite Hm. cbn [negb].
        destruct (last_shopify r) as [[k' o']|]; reflexivity.
      * now rewrite keys_app.
      * rewrite keys_app. intros H. apply in_app_or in H. tauto.
      * exact Hdisc.
      * right. eexists. reflexivity.
    + change (((k, v) :: r) ++ s) with ((k, v) :: r ++ s).
      rewrite (swap_key_other k v).
      * simpl bind.
        replace (n ++ (k, v) :: r ++ s) with ((n ++ [(k, v)]) ++ r ++ s)
          by (now rewrite <- app_assoc).
        rewrite IH.
        -- unfold others, shopify_slot. cbn [filter snd last_shopify].
           rewrite Hm. cbn [negb]. rewrite <- app_assoc. simpl.
           destruct (last_shopify r) as [[k' o']|]; [reflexivity|].
           destruct v; reflexivity.
        -- rewrite <- app_assoc, keys_app. exact Hnd.
        -- rewrite <- app_assoc, keys_app. exact Hsh.
        -- exact Hdisc.
        -- exact Hslot.
      * rewrite get_app_notin by exact Hkn. simpl. now rewrite String.eqb_refl.
      * exact Hv.
      * exact Hm.
Qed.

Lemma swap_keys_clean (d : dict) :
  Dict.wfb d = true ->
  Dict.get "shopify" d = None ->
  forallb has_discriminator (map snd d) = true ->
  swap_keys (Dict.keys d) d = Ok (others d ++ shopify_slot [] d).
Proof.
  intros Hwf Hsh Hdisc.
  pose proof (swap_keys_loop d [] []) as H. simpl in H.
  rewrite app_nil_r in H. apply H.
  - apply DictFacts.wfb_wf, Hwf.
  - intros Hin. apply DictFacts.get_in_keys in Hin. congruence.
  - exact Hdisc.
  - now left.
Qed.

(** ** Facts on the matching entries *)

Lemma get_In (k : string) (v : json) (d : dict) :
  Dict.get k d = Some v -> In (k, v) d.
Proof.
  induction d as [|[k' v'] d IH]; simpl; [discriminate|].
  destruct (String.eqb k k') eqn:E.
  - apply String.eqb_eq in E. intros [= ->]. subst. now left.
  - intros H. right. now apply IH.
Qed.

Lemma In_keys (k : string) (v : json) (d : dict) :
  In (k, v) d -> In k (Dict.keys d).
Proof. intros H. apply (in_map fst) in H. exact H. Qed.

Lemma wf_In_unique (k : string) (v v' : json) (d : dict) :
  Dict.wf d -> In (k, v) d -> In (k, v') d -> v = v'.
Proof.
  unfold Dict.wf, Dict.keys.
  induction d as [|[k0 v0] d IH]; simpl; intros Hnd H1 H2; [tauto|].
  inversion Hnd as [|? ? Hnotin Hnd']; subst.
  destruct H1 as [H1|H1], H2 as [H2|H2].
  - congruence.
  - injection H1 as -> ->. exfalso. apply Hnotin. exact (In_keys _ _ _ H2).
  - injection H2 as -> ->. exfalso. apply Hnotin. exact (In_keys _ _ _ H1).
  - now apply IH.
Qed.

Lemma last_shopify_In (d : dict) (k : string) (o : dict) :
  last_shopify d = Some (k, o) ->
  In (k, JObj o) d /\ is_shopify (JObj o) = true.
Proof.
  induction d as [|[k' v'] d IH]; simpl; [discriminate|].
  destruct (last_shopify d) as [e|].
  - intros [= ->]. destruct (IH eq_refl). auto.
  - destruct v' as [| | | | | |o']; try discriminate.
    destruct (is_shopify (JObj o')) eqn:E; [|discriminate].
    intros [= -> ->]. auto.
Qed.

Lemma last_shopify_None (d : dict) :
  last_shopify d = None -> count_shopify d = 0%nat.
Proof.
  unfold count_shopify.
  induction d as [|[k v] d IH]; cbn [last_shopify filter snd];
    [reflexivity|].
  intros H. destruct (last_shopify d) as [e|]; [discriminate|].
  assert (E : is_shopify v = false).
  { destruct v as [| | | | | |o]; try reflexivity.
    destruct (is_shopify (JObj o)); [discriminate | reflexivity]. }
  rewrite E. apply IH. reflexivity.
Qed.

Lemma filter_single (A : Type) (f : A -> bool) (l : list A) (x y : A) :
  List.length (filter f l) = 1%nat ->
  In x l -> f x = true -> In y l -> f y = true -> x = y.
Proof.
  intros Hlen Hx Hfx Hy Hfy.
  assert (Hx' : In x (filter f l)) by (apply filter_In; auto).
  assert (Hy' : In y (filter f l)) by (apply filter_In; auto).
  destruct (filter f l) as [|z [|z' t]]; try discriminate.
  destruct Hx' as [<-|[]], Hy' as [<-|[]]. reflexivity.
Qed.

Lemma last_shopify_single (d : dict) (k : string) (o : dict) :
  count_shopify d = 1%nat ->
  Dict.get k d = Some (JObj o) ->
  is_shopify (JObj o) = true ->
  last_shopify d = Some (k, o).
Proof.
  intros Hc Hg Hm.
  destruct (last_shopify d) as [[k' o']|] eqn:E.
  - destruct (last_shopify_In _ _ _ E) as [Hin Hm'].
    assert (Heq : (k, JObj o) = (k', JObj o')).
    { apply (filter_single _ (fun kv => is_shopify (snd kv)) d); auto.
      now apply get_In. }
    now injection Heq as -> ->.
  - apply last_shopify_None in E. congruence.
Qed.

Lemma keys_others_incl (k : string) (d : dict) :
  In k (Dict.keys (others d)) -> In k (Dict.keys d).
Proof.
  unfold Dict.keys, others. intros H.
  apply in_map_iff in H. destruct H as [[k' v] [<- H]].
  apply filter_In in H. destruct H as [H _].
  exact (In_keys _ _ _ H).
Qed.

Lemma get_shopify_normalized (d : dict) (x : json) :
  Dict.get "shopify" d = None ->
  Dict.get "shopify" (others d ++ [("shopify", x)]) = Some x.
Proof.
  intros H. rewrite get_app_notin; [reflexivity|].
  intros Hin. apply keys_others_incl, DictFacts.get_in_keys in Hin. congruence.
Qed.

Lemma get_matching_normalized (d : dict) (k : string) (v x : json) :
  Dict.wf d ->
  Dict.get "shopify" d = None ->
  In (k, v) d -> is_shopify v = true ->
  Dict.get k (others d ++ [("shopify", x)]) = None.
Proof.
  intros Hwf Hsh Hin Hm.
  assert (Hk : k <> "shopify").
  { intros ->. apply In_keys, DictFacts.get_in_keys in Hin. congruence. }
  rewrite get_app_notin.
  - simpl. apply String.eqb_neq in Hk. now rewrite Hk.
  - intros Hin'. unfold Dict.keys, others in Hin'.
    apply in_map_iff in Hin'. destruct Hin' as [[k' v'] [Hk' H]].
    simpl in Hk'. subst k'.
    apply filter_In in H. destruct H as [H Hn]. simpl in Hn.
    rewrite (wf_In_unique _ _ _ _ Hwf H Hin), Hm in Hn. discriminate.
Qed.

Lemma is_shopify_set_id (x : json) (o : dict) :
  is_shopify (JObj (Dict.set "id" x o)) = is_shopify (JObj o).
Proof.
  simpl. now rewrite DictFacts.get_set_other by discriminate.
Qed.

Lemma count_shopify_normalized (d : dict) (x : json) :
  is_shopify x = true ->
  count_shopify (others d ++ [("shopify", x)]) = 1%nat.
Proof.
  intros Hx. unfold count_shopify, others.
  rewrite filter_app, length_app. simpl. rewrite Hx. simpl.
  replace (filter (fun kv => is_shopify (snd kv))
             (filter (fun kv => negb (is_shopify (snd kv))) d))
    with (@nil (string * json)); [reflexivity|].
  induction d as [|[k v] d IH]; simpl; [reflexivity|].
  destruct (is_shopify v) eqn:E; simpl; [exact IH|].
  now rewrite E.
Qed.

(** ** parse_response: the key swap *)

Lemma parse_response_clean (resp : json) (integ : dict) :
  integrations_of resp = Some integ ->
  Dict.wfb integ = true ->
  Dict.get "shopify" integ = None ->
  forallb has_discriminator (map snd integ) = true ->
  exists resp',
    parse_response resp = Ok [resp'] /\
    integrations_of resp' = Some (others integ ++ shopify_slot [] integ).
Proof.
  intros Hi Hwf Hsh Hdisc.
  destruct (integrations_of_inv _ _ Hi) as [top [customer [-> [Hc Hg]]]].
  eexists. split.
  - apply (parse_response_intro top customer integ
             (others integ ++ shopify_slot [] integ) Hc Hg).
    now apply swap_keys_clean.
  - apply integrations_of_set.
Qed.

(** C1, as the code has it: when the integrations mapping (a dict, so
    without a repeated key) has no entry under the key ["shopify"] itself,
    every entry is an object carrying the discriminator, and exactly one of
    them, stored under [k], has the discriminator ["shopify"], then
    [parse_response] yields one record whose integrations mapping binds
    ["shopify"] to that sub-object with [k] stored as its ["id"], and no
    longer has the key [k]. *)
Theorem parse_response_single_shopify
  (resp : json) (integ : dict) (k : string) (o : dict) :
  integrations_of resp = Some integ ->
  Dict.wfb integ = true ->
  Dict.get "shopify" integ = None ->
  forallb has_discriminator (map snd integ) = true ->
  Dict.get k integ = Some (JObj o) ->
  is_shopify (JObj o) = true ->
  count_shopify integ = 1%nat ->
  exists resp' integ',
    parse_response resp = Ok [resp'] /\
    integrations_of resp' = Some integ' /\
    Dict.get "shopify" integ' = Some (JObj (Dict.set "id" (JStr k) o)) /\
    Dict.get k integ' = None.
Proof.
  intros Hi Hwf Hsh Hdisc Hk Hm Hc.
  destruct (parse_response_clean resp integ Hi Hwf Hsh Hdisc) as [resp' [Hp Hi']].
  exists resp'. eexists. split; [exact Hp|]. split; [exact Hi'|].
  unfold shopify_slot. rewrite (last_shopify_single integ k o Hc Hk Hm).
  split.
  - now apply get_shopify_normalized.
  - apply (get_matching_normalized integ k (JObj o)); auto.
    + now apply DictFacts.wfb_wf.
    + now apply get_In.
Qed.

Lemma parse_response_single_shopify_witness :
  exists resp' integ',
    parse_response (response_with one_shopify) = Ok [resp'] /\
    integrations_of resp' = Some integ' /\
    Dict.get "shopify" integ'
    = Some (JObj (Dict.set "id" (JStr "123") (shopify_entry "a"))) /\
    Dict.get "123" integ' = None.
Proof.
  apply (parse_response_single_shopify
           (response_with one_shopify) one_shopify "123" (shopify_entry "a"));
    reflexivity.
Defined.

(** C1 as stated fails: with exactly one matching sub-object, under the
    key ["123"], and an entry of another type under the key ["shopify"]
    after it, the loop visits ["shopify"] too, finds the relocated
    sub-object there and overwrites its ["id"] with ["shopify"]: the
    original key is lost. *)
Lemma parse_response_single_shopify_key_lost :
  count_shopify shopify_key_taken = 1%nat /\
  Dict.get "123" shopify_key_taken = Some (JObj (shopify_entry "a")) /\
  is_shopify (JObj (shopify_entry "a")) = true /\
  parse_response (response_with shopify_key_taken)
  = Ok [response_with
          [("shopify",
             JObj (Dict.set "id" (JStr "shopify") (shopify_entry "a")))]] /\
  Dict.set "id" (JStr "shopify") (shopify_entry "a")
  <> Dict.set "id" (JStr "123") (shopify_entry "a").
Proof. repeat split. discriminate. Qed.

(** Another entry without the discriminator field makes the loop raise. *)
Lemma parse_response_untyped_entry :
  count_shopify untyped_entry = 1%nat /\
  parse_response (response_with untyped_entry)
  = Err (KeyError "__integration_type__").
Proof. split; reflexivity. Qed.

(** C2, as the code has it: [parse_response] never raises
    [TransformError]; when two or more entries match (in a mapping without a
    ["shopify"] key whose entries all carry the discriminator) it yields a
    record all the same, in which ["shopify"] is bound to the last matching
    sub-object in key order, with that entry's key as ["id"]; the keys of
    all matching entries are gone and one matching entry remains. *)
Theorem parse_response_many_shopify (resp : json) (integ : dict) :
  integrations_of resp = Some integ ->
  Dict.wfb integ = true ->
  Dict.get "shopify" integ = None ->
  forallb has_discriminator (map snd integ) = true ->
  (2 <= count_shopify integ)%nat ->
  parse_response resp <> Err TransformError /\
  exists resp' integ' k o,
    parse_response resp = Ok [resp'] /\
    integrations_of resp' = Some integ' /\
    last_shopify integ = Some (k, o) /\
    Dict.get "shopify" integ' = Some (JObj (Dict.set "id" (JStr k) o)) /\
    count_shopify integ' = 1%nat /\
    forall k' v, In (k', v) integ -> is_shopify v = true ->
                 Dict.get k' integ' = None.
Proof.
  intros Hi Hwf Hsh Hdisc Hc.
  split; [apply parse_response_not_TransformError|].
  destruct (parse_response_clean resp integ Hi Hwf Hsh Hdisc) as [resp' [Hp Hi']].
  destruct (last_shopify integ) as [[k o]|] eqn:E.
  - exists resp', (others integ ++ shopify_slot [] integ), k, o.
    destruct (last_shopify_In _ _ _ E) as [Hin Hm].
    unfold shopify_slot in *. rewrite E in *.
    repeat split; auto.
    + now apply get_shopify_normalized.
    + apply count_shopify_normalized. now rewrite is_shopify_set_id.
    + intros k' v Hin' Hm'.
      apply (get_matching_normalized integ k' v); auto.
      now apply DictFacts.wfb_wf.
  - apply last_shopify_None in E. lia.
Qed.

Lemma parse_response_many_shopify_witness :
  parse_response (response_with two_shopify) <> Err TransformError /\
  exists resp' integ' k o,
    parse_response (response_with two_shopify) = Ok [resp'] /\
    integrations_of resp' = Some integ' /\
    last_shopify two_shopify = Some (k, o) /\
    Dict.get "shopify" integ' = Some (JObj (Dict.set "id" (JStr k) o)) /\
    count_shopify integ' = 1%nat /\
    forall k' v, In (k', v) two_shopify -> is_shopify v = true ->
                 Dict.get k' integ' = None.
Proof.
  apply (parse_response_many_shopify (response_with two_shopify) two_shopify);
    first [reflexivity | vm_compute; lia].
Defined.

(** C2 as stated fails: with two matching sub-objects the transform does
    not fail; it yields a record that keeps the second one. *)
Lemma parse_response_two_shopify_no_error :
  count_shopify two_shopify = 2%nat /\
  parse_response (response_with two_shopify)
  = Ok [response_with
          [ ("82", JObj email_entry);
            ("shopify",
              JObj (Dict.set "id" (JStr "456") (shopify_entry "b"))) ]] /\
  parse_response (response_with two_shopify) <> Err TransformError.
Proof. repeat split. discriminate. Qed.

(** ** parse_response: what the loop leaves alone *)

Lemma swap_key_frame (key : string) (d d' : dict) (k : string) (v : json) :
  swap_key key d = Ok d' ->
  k <> "shopify" ->
  Dict.get k d = Some v ->
  is_shopify v = false ->
  Dict.get k d' = Some v.
Proof.
  unfold swap_key, Dict.getitem, Dict.pop. intros H Hk Hg Hv.
  destruct (Dict.get key d) as [entry|] eqn:He; [|discriminate].
  simpl in H.
  destruct entry as [| | | | | |o]; try discriminate.
  simpl in H. unfold Dict.getitem in H.
  destruct (Dict.get "__integration_type__" o) as [ty|] eqn:Ht; [|discriminate].
  simpl in H.
  destruct (eq_str ty "shopify") eqn:Hty.
  - simpl in H. rewrite DictFacts.get_set_same in H. simpl in H.
    injection H as <-.
    assert (Hne : key <> k).
    { intros ->. rewrite He in Hg. injection Hg as <-.
      simpl in Hv. rewrite Ht in Hv. congruence. }
    rewrite !DictFacts.get_set_other by congruence.
    now rewrite DictFacts.get_remove_other.
  - injection H as <-. exact Hg.
Qed.

Lemma swap_keys_frame (ks : list string) (k : string) (v : json) :
  forall d d' : dict,
    swap_keys ks d = Ok d' ->
    k <> "shopify" ->
    Dict.get k d = Some v ->
    is_shopify v = false ->
    Dict.get k d' = Some v.
Proof.
  induction ks as [|key ks IH]; simpl; intros d d' H Hk Hg Hv.
  - injection H as <-. exact Hg.
  - destruct (swap_key key d) as [d1|e] eqn:E; [|discriminate].
    simpl in H. apply (IH d1 d' H Hk); [|exact Hv].
    exact (swap_key_frame key d d1 k v E Hk Hg Hv).
Qed.

(** C10, as the code has it: a record yielded by [parse_response] is the
    response with only the value of [customer.integrations] replaced: the
    top-level keys and every top-level field but ["customer"] are the same,
    and so are the keys of [customer] and every field of it but
    ["integrations"]; in the integrations mapping, an entry whose
    discriminator is not ["shopify"] keeps its key and content unless it is
    stored under the key ["shopify"] itself. *)
Theorem parse_response_frame (resp resp' : json) :
  parse_response resp = Ok [resp'] ->
  exists top customer integ top' customer' integ',
    resp = JObj top /\ resp' = JObj top' /\
    Dict.get "customer" top = Some (JObj customer) /\
    Dict.get "customer" top' = Some (JObj customer') /\
    Dict.get "integrations" customer = Some (JObj integ) /\
    Dict.get "integrations" customer' = Some (JObj integ') /\
    Dict.keys top' = Dict.keys top /\
    (forall f, f <> "customer" -> Dict.get f top' = Dict.get f top) /\
    Dict.keys customer' = Dict.keys customer /\
    (forall f, f <> "integrations" ->
               Dict.get f customer' = Dict.get f customer) /\
    (forall k v, k <> "shopify" -> Dict.get k integ = Some v ->
                 is_shopify v = false -> Dict.get k integ' = Some v).
Proof.
  intros H.
  destruct (parse_response_inv resp [resp'] H)
    as [top [customer [integ [integ' [-> [Hc [Hi [Hs Hr]]]]]]]].
  injection Hr as ->.
  exists top, customer, integ.
  exists (Dict.set "customer"
            (JObj (Dict.set "integrations" (JObj integ') customer)) top).
  exists (Dict.set "integrations" (JObj integ') customer), integ'.
  repeat split; auto.
  - apply DictFacts.get_set_same.
  - apply DictFacts.get_set_same.
  - apply DictFacts.keys_set_present. congruence.
  - intros f Hf. apply DictFacts.get_set_other. congruence.
  - apply DictFacts.keys_set_present. congruence.
  - intros f Hf. apply DictFacts.get_set_other. congruence.
  - intros k v Hk Hg Hv.
    exact (swap_keys_frame (Dict.keys integ) k v integ integ' Hs Hk Hg Hv).
Qed.

Lemma parse_response_frame_witness :
  exists top customer integ top' customer' integ',
    response_with one_shopify = JObj top /\
    response_with
      [ ("82", JObj email_entry);
        ("shopify", JObj (Dict.set "id" (JStr "123") (shopify_entry "a"))) ]
    = JObj top' /\
    Dict.get "customer" top = Some (JObj customer) /\
    Dict.get "customer" top' = Some (JObj customer') /\
    Dict.get "integrations" customer = Some (JObj integ) /\
    Dict.get "integrations" customer' = Some (JObj integ') /\
    Dict.keys top' = Dict.keys top /\
    (forall f, f <> "customer" -> Dict.get f top' = Dict.get f top) /\
    Dict.keys customer' = Dict.keys customer /\
    (forall f, f <> "integrations" ->
               Dict.get f customer' = Dict.get f customer) /\
    (forall k v, k <> "shopify" -> Dict.get k integ = Some v ->
                 is_shopify v = false -> Dict.get k integ' = Some v).
Proof.
  apply (parse_response_frame (response_with one_shopify)).
  reflexivity.
Defined.

(** C10 as stated fails: an entry of another type stored under the key
    ["shopify"] does not keep its content when some entry matches; the
    matching sub-object is written over it. *)
Lemma parse_response_overwrites_shopify_key :
  Dict.get "shopify" shopify_key_taken_first = Some (JObj email_entry) /\
  is_shopify (JObj email_entry) = false /\
  parse_response (response_with shopify_key_taken_first)
  = Ok [response_with
          [("shopify", JObj (Dict.set "id" (JStr "123") (shopify_entry "a")))]] /\
  Dict.get "shopify"
    [("shopify", JObj (Dict.set "id" (JStr "123") (shopify_entry "a")))]
  <> Some (JObj email_entry).
Proof. repeat split. discriminate. Qed.

(** ** The fields of an emitted ticket_details record *)

Lemma post_process_keys (row : dict) (context : option dict) (row' : dict) :
  post_process row context = Ok row' ->
  Dict.keys row'
  = filter (fun k => negb (Dict.mem k body_fields)) (Dict.keys row) /\
  In "messages" (Dict.keys row').
Proof.
  unfold post_process, Dict.getitem. intros H.
  destruct (Dict.get "messages" (pop_bodies row)) as [m|] eqn:Hm; [|discriminate].
  assert (Hin : In "messages" (Dict.keys (pop_bodies row)))
    by (apply DictFacts.get_in_keys; congruence).
  simpl in H.
  destruct m as [| | | |s|ms|fs]; try discriminate.
  - destruct s; [|discriminate]. injection H as <-.
    split; [apply keys_pop_bodies | exact Hin].
  - destruct (mapM pop_message ms) as [ms'|e]; [|discriminate].
    simpl in H. injection H as <-.
    rewrite DictFacts.keys_set_present by congruence.
    split; [apply keys_pop_bodies | exact Hin].
  - destruct fs; [|discriminate]. injection H as <-.
    split; [apply keys_pop_bodies | exact Hin].
Qed.

(** C4, as the code has it: the two methods only take fields away.  The
    top-level field names of an emitted ticket_details record are those of
    the raw response without the four body fields; ["messages"], which the
    schema does not declare, is always among them; the names are within the
    schema's names and ["messages"] when those of the raw response are
    within the schema's names, ["messages"] and the four body fields. *)
Theorem transform_field_names
  (resp : json) (context : option dict) (rows : list dict) :
  transform resp context = Ok rows ->
  exists top row',
    resp = JObj top /\ rows = [row'] /\
    Dict.keys row'
    = filter (fun k => negb (Dict.mem k body_fields)) (Dict.keys top) /\
    In "messages" (Dict.keys row') /\
    ~ In "messages" (schema_fields TicketDetailsStream) /\
    (incl (Dict.keys top)
          (schema_fields TicketDetailsStream ++ "messages" :: body_fields) ->
     incl (Dict.keys row')
          (schema_fields TicketDetailsStream ++ ["messages"])).
Proof.
  unfold transform. intros H.
  destruct (parse_response resp) as [items|e] eqn:Hp; [|discriminate].
  destruct (parse_response_inv resp items Hp)
    as [top [customer [integ [integ' [-> [Hc [Hi [Hs ->]]]]]]]].
  simpl in H.
  destruct (post_process _ context) as [row'|e] eqn:Hpp; [|discriminate].
  simpl in H. injection H as <-.
  destruct (post_process_keys _ _ _ Hpp) as [Hk Hin].
  rewrite DictFacts.keys_set_present in Hk by congruence.
  exists top, row'. repeat split; auto.
  - intros Hm. apply DictFacts.mem_In in Hm. discriminate.
  - intros Hincl k Hkin. rewrite Hk in Hkin.
    apply filter_In in Hkin. destruct Hkin as [Hkin Hnb].
    apply negb_true_iff in Hnb.
    apply Hincl, in_app_or in Hkin. apply in_or_app.
    destruct Hkin as [Hkin|[<-|Hkin]]; [now left | right; now left |].
    apply DictFacts.mem_In in Hkin. congruence.
Qed.

Lemma transform_field_names_witness :
  exists top row',
    response_with one_shopify = JObj top /\
    [ [ ("id", JInt 7);
        ("customer",
          JObj [ ("id", JInt 3);
                 ("email", JStr "jane@example.com");
                 ("integrations",
                   JObj [ ("82", JObj email_entry);
                          ("shopify",
                            JObj (Dict.set "id" (JStr "123")
                                    (shopify_entry "a"))) ]) ]);
        ("subject", JStr "Where is my order?");
        ("messages", JArr [JObj [("id", JInt 1)]; JObj [("id", JInt 2)]]) ] ]
    = [row'] /\
    Dict.keys row'
    = filter (fun k => negb (Dict.mem k body_fields)) (Dict.keys top) /\
    In "messages" (Dict.keys row') /\
    ~ In "messages" (schema_fields TicketDetailsStream) /\
    (incl (Dict.keys top)
          (schema_fields TicketDetailsStream ++ "messages" :: body_fields) ->
     incl (Dict.keys row')
          (schema_fields TicketDetailsStream ++ ["messages"])).
Proof.
  apply (transform_field_names (response_with one_shopify) None).
  reflexivity.
Defined.

(** C4 as stated fails: the record emitted for a ticket-detail response
    has the top-level field ["messages"], which the ticket_details schema
    does not declare. *)
Lemma transform_keeps_undeclared_messages :
  exists row,
    transform (response_with one_shopify) None = Ok [row] /\
    In "messages" (Dict.keys row) /\
    ~ In "messages" (schema_fields TicketDetailsStream) /\
    ~ incl (Dict.keys row) (schema_fields TicketDetailsStream).
Proof.
  eexists. split; [reflexivity|].
  assert (Hn : ~ In "messages" (schema_fields TicketDetailsStream)).
  { intros Hm. apply DictFacts.mem_In in Hm. discriminate. }
  split; [|split; [exact Hn|]].
  - simpl. tauto.
  - intros Hincl. apply Hn, Hincl. simpl. tauto.
Qed.

(** * Further properties of the methods *)

(** ** parse_response: mappings without a matching entry *)

Lemma set_same_value (k : string) (v : json) (d : dict) :
  Dict.get k d = Some v -> Dict.set k v d = d.
Proof.
  induction d as [|[k' v'] d IH]; simpl; [discriminate|].
  destruct (String.eqb k k') eqn:E.
  - apply String.eqb_eq in E. intros [= ->]. now subst.
  - intros H. now rewrite IH.
Qed.

Lemma swap_keys_unchanged (ks : list string) (d : dict) :
  (forall k, In k ks ->
     exists v, Dict.get k d = Some v /\ has_discriminator v = true /\
               is_shopify v = false) ->
  swap_keys ks d = Ok d.
Proof.
  induction ks as [|k ks IH]; simpl; intros H; [reflexivity|].
  destruct (H k (or_introl eq_refl)) as [v [Hg [Hd Hs]]].
  rewrite (swap_key_other k v d Hg Hd Hs). simpl.
  apply IH. intros k' Hk'. apply H. now right.
Qed.

Lemma count_shopify_zero (d : dict) (k : string) (v : json) :
  count_shopify d = 0%nat -> In (k, v) d -> is_shopify v = false.
Proof.
  unfold count_shopify. intros Hc Hin.
  destruct (is_shopify v) eqn:E; [|reflexivity].
  assert (Hf : In (k, v) (filter (fun kv => is_shopify (snd kv)) d))
    by (apply filter_In; auto).
  destruct (filter (fun kv => is_shopify (snd kv)) d); [destruct Hf | discriminate].
Qed.

Lemma typed_In (d : dict) (k : string) (v : json) :
  forallb has_discriminator (map snd d) = true ->
  In (k, v) d -> has_discriminator v = true.
Proof.
  intros H Hin. rewrite forallb_forall in H. apply H.
  apply (in_map snd) in Hin. exact Hin.
Qed.

Lemma keys_get (k : string) (d : dict) :
  In k (Dict.keys d) -> exists v, Dict.get k d = Some v.
Proof.
  intros H. apply DictFacts.get_in_keys in H.
  destruct (Dict.get k d) as [v|]; [now exists v | congruence].
Qed.

(** X1: when no entry of the integrations mapping has the discriminator
    ["shopify"] (and every entry carries a discriminator), the loop changes
    nothing and [parse_response] yields the response as it came. *)
Theorem parse_response_no_match_identity (resp : json) (integ : dict) :
  integrations_of resp = Some integ ->
  forallb has_discriminator (map snd integ) = true ->
  count_shopify integ = 0%nat ->
  parse_response resp = Ok [resp].
Proof.
  intros Hi Hd Hc.
  destruct (integrations_of_inv _ _ Hi) as [top [customer [-> [Hcu Hin]]]].
  rewrite (parse_response_intro top customer integ integ Hcu Hin).
  - now rewrite (set_same_value _ _ _ Hin), (set_same_value _ _ _ Hcu).
  - apply swap_keys_unchanged. intros k Hk.
    destruct (keys_get k integ Hk) as [v Hv]. exists v.
    pose proof (get_In _ _ _ Hv) as Hvin.
    split; [exact Hv|]. split.
    + exact (typed_In integ k v Hd Hvin).
    + exact (count_shopify_zero integ k v Hc Hvin).
Qed.

Lemma parse_response_no_match_identity_witness :
  parse_response (response_with no_shopify) = Ok [response_with no_shopify].
Proof.
  apply (parse_response_no_match_identity (response_with no_shopify) no_shopify);
    reflexivity.
Defined.

(** ** parse_response: when it yields *)

Lemma swap_key_untyped (k : string) (v : json) (d : dict) :
  Dict.get k d = Some v ->
  has_discriminator v = false ->
  exists e, swap_key k d = Err e.
Proof.
  intros Hg Hd. unfold swap_key, Dict.getitem. rewrite Hg. simpl.
  destruct v as [| | | | | |o]; simpl; try (eexists; reflexivity).
  simpl in Hd. unfold Dict.getitem.
  destruct (Dict.get "__integration_type__" o); [discriminate|].
  eexists. reflexivity.
Qed.

Lemma untyped_not_shopify (v : json) :
  has_discriminator v = false -> is_shopify v = false.
Proof.
  intros H. destruct (is_shopify v) eqn:E; [|reflexivity].
  apply is_shopify_has_discriminator in E. congruence.
Qed.

Lemma swap_keys_untyped (ks : list string) (k : string) (v : json) :
  forall d : dict,
    In k ks -> k <> "shopify" ->
    Dict.get k d = Some v ->
    has_discriminator v = false ->
    exists e, swap_keys ks d = Err e.
Proof.
  induction ks as [|key ks IH]; simpl; intros d Hin Hk Hg Hd; [tauto|].
  destruct (swap_key key d) as [d1|e] eqn:E; simpl.
  - pose proof (swap_key_frame key d d1 k v E Hk Hg (untyped_not_shopify v Hd))
      as Hg1.
    destruct Hin as [->|Hin].
    + destruct (swap_key_untyped k v d Hg Hd) as [e He]. congruence.
    + exact (IH d1 Hin Hk Hg1 Hd).
  - now exists e.
Qed.

Lemma wf_In_get (k : string) (v : json) (d : dict) :
  Dict.wf d -> In (k, v) d -> Dict.get k d = Some v.
Proof.
  intros Hwf Hin.
  destruct (keys_get k d (In_keys _ _ _ Hin)) as [v' Hv'].
  rewrite Hv'. f_equal.
  exact (wf_In_unique k v' v d Hwf (get_In _ _ _ Hv') Hin).
Qed.

Lemma forallb_false_In (A : Type) (f : A -> bool) (l : list A) :
  forallb f l = false -> exists x, In x l /\ f x = false.
Proof.
  induction l as [|a l IH]; simpl; [discriminate|].
  destruct (f a) eqn:E; simpl; intros H.
  - destruct (IH H) as [x [Hx Hf]]. exists x. auto.
  - exists a. auto.
Qed.

(** X2: on a response whose integrations mapping has no entry under the
    key ["shopify"], [parse_response] yields a record exactly when every
    entry of the mapping is an object that carries the discriminator field;
    one entry without it makes the whole response fail. *)
Theorem parse_response_yields_iff_typed (resp : json) (integ : dict) :
  integrations_of resp = Some integ ->
  Dict.wfb integ = true ->
  Dict.get "shopify" integ = None ->
  (exists resp', parse_response resp = Ok [resp'])
  <-> forallb has_discriminator (map snd integ) = true.
Proof.
  intros Hi Hwf Hsh. split.
  - intros [resp' Hp].
    destruct (forallb has_discriminator (map snd integ)) eqn:E; [reflexivity|].
    exfalso.
    destruct (forallb_false_In _ _ _ E) as [v [Hv Hd]].
    apply in_map_iff in Hv. destruct Hv as [[k v'] [Heq Hin]].
    simpl in Heq. subst v'.
    pose proof (wf_In_get k v integ (DictFacts.wfb_wf integ Hwf) Hin) as Hg.
    assert (Hk : k <> "shopify") by (intros ->; congruence).
    destruct (swap_keys_untyped (Dict.keys integ) k v integ
                (In_keys _ _ _ Hin) Hk Hg Hd) as [e He].
    destruct (parse_response_inv resp [resp'] Hp)
      as [top [cu [integ0 [integ' [-> [Hc [Hin0 [Hs _]]]]]]]].
    unfold integrations_of in Hi. rewrite Hc, Hin0 in Hi.
    injection Hi as ->. congruence.
  - intros Hd.
    destruct (parse_response_clean resp integ Hi Hwf Hsh Hd) as [resp' [Hp _]].
    now exists resp'.
Qed.

Lemma parse_response_yields_iff_typed_witness :
  (exists resp', parse_response (response_with untyped_entry) = Ok [resp'])
  <-> forallb has_discriminator (map snd untyped_entry) = true.
Proof.
  apply (parse_response_yields_iff_typed (response_with untyped_entry));
    reflexivity.
Defined.

(** ** parse_response: the exceptions it can raise *)






(** ** parse_response: the mapping it produces *)

(** X4: on a mapping without a ["shopify"] key whose entries all carry the
    discriminator, the mapping of the yielded record is the entries of other
    types, in their original order, followed (when some entry matches) by
    the single ["shopify"] entry, which comes last. *)
Theorem parse_response_normal_form (resp : json) (integ : dict) :
  integrations_of resp = Some integ ->
  Dict.wfb integ = true ->
  Dict.get "shopify" integ = None ->
  forallb has_discriminator (map snd integ) = true ->
  exists resp',
    parse_response resp = Ok [resp'] /\
    integrations_of resp'
    = Some (others integ ++
            match last_shopify integ with
            | Some (k, o) => [("shopify", JObj (Dict.set "id" (JStr k) o))]
            | None => []
            end).
Proof.
  intros Hi Hwf Hsh Hd.
  exact (parse_response_clean resp integ Hi Hwf Hsh Hd).
Qed.

Lemma parse_response_normal_form_witness :
  exists resp',
    parse_response (response_with two_shopify) = Ok [resp'] /\
    integrations_of resp'
    = Some [ ("82", JObj email_entry);
             ("shopify", JObj (Dict.set "id" (JStr "456") (shopify_entry "b"))) ].
Proof.
  apply (parse_response_normal_form (response_with two_shopify) two_shopify);
    reflexivity.
Defined.

(** ** parse_response: applied to its own output *)

Lemma swap_keys_app (ks1 ks2 : list string) (d : dict) :
  swap_keys (ks1 ++ ks2) d = (d1 <- swap_keys ks1 d ;; swap_keys ks2 d1).
Proof.
  revert d. induction ks1 as [|k ks1 IH]; simpl; intros d; [reflexivity|].
  destruct (swap_key k d) as [d1|e]; simpl; [apply IH | reflexivity].
Qed.

Lemma get_app_in (k : string) (n d : dict) :
  Dict.get k n <> None -> Dict.get k (n ++ d) = Dict.get k n.
Proof.
  induction n as [|[k' v'] n IH]; simpl; [congruence|].
  destruct (String.eqb k k'); [reflexivity | exact IH].
Qed.

Lemma set_set (k : string) (x y : json) (d : dict) :
  Dict.set k x (Dict.set k y d) = Dict.set k x d.
Proof.
  induction d as [|[k' v'] d IH]; simpl.
  - now rewrite String.eqb_refl.
  - destruct (String.eqb k k') eqn:E; simpl.
    + now rewrite String.eqb_refl.
    + now rewrite E, IH.
Qed.

Lemma swap_keys_relocated (n o : dict) :
  ~ In "shopify" (Dict.keys n) ->
  (forall k v, In (k, v) n ->
               has_discriminator v = true /\ is_shopify v = false) ->
  is_shopify (JObj o) = true ->
  swap_keys (Dict.keys (n ++ [("shopify", JObj o)])) (n ++ [("shopify", JObj o)])
  = Ok (n ++ [("shopify", JObj (Dict.set "id" (JStr "shopify") o))]).
Proof.
  intros Hsh Hn Ho.
  rewrite keys_app, swap_keys_app.
  rewrite swap_keys_unchanged.
  - simpl. unfold swap_key, Dict.getitem, Dict.pop.
    rewrite (get_app_notin _ _ _ Hsh). simpl.
    simpl in Ho. unfold Dict.getitem.
    destruct (Dict.get "__integration_type__" o) as [ty|]; [|discriminate].
    simpl. rewrite Ho. simpl.
    rewrite remove_app, (remove_notin _ _ Hsh). simpl.
    rewrite !set_app_notin by exact Hsh. simpl.
    rewrite get_app_notin by exact Hsh. simpl.
    rewrite set_app_notin by exact Hsh. reflexivity.
  - intros k Hk.
    destruct (keys_get k n Hk) as [v Hv]. exists v.
    rewrite get_app_in by congruence.
    split; [exact Hv|]. exact (Hn k v (get_In _ _ _ Hv)).
Qed.

Lemma others_spec (d : dict) (k : string) (v : json) :
  forallb has_discriminator (map snd d) = true ->
  In (k, v) (others d) ->
  has_discriminator v = true /\ is_shopify v = false.
Proof.
  unfold others. intros Hd Hin.
  apply filter_In in Hin. destruct Hin as [Hin Hn]. simpl in Hn.
  split; [exact (typed_In d k v Hd Hin) | now apply negb_true_iff].
Qed.

Lemma others_no_shopify_key (d : dict) :
  Dict.get "shopify" d = None -> ~ In "shopify" (Dict.keys (others d)).
Proof.
  intros H Hin. apply keys_others_incl, DictFacts.get_in_keys in Hin.
  congruence.
Qed.

(** X5: [parse_response] is not idempotent.  Run on a record it has
    yielded (from a mapping with at least one matching entry), it visits
    the key ["shopify"], finds the relocated sub-object there and stores
    ["shopify"] as its ["id"]: the original key, kept by the first run, is
    replaced. *)
Theorem parse_response_twice (resp : json) (integ : dict) :
  integrations_of resp = Some integ ->
  Dict.wfb integ = true ->
  Dict.get "shopify" integ = None ->
  forallb has_discriminator (map snd integ) = true ->
  (1 <= count_shopify integ)%nat ->
  exists r1 r2 k o,
    last_shopify integ = Some (k, o) /\
    parse_response resp = Ok [r1] /\
    integrations_of r1
    = Some (others integ ++ [("shopify", JObj (Dict.set "id" (JStr k) o))]) /\
    parse_response r1 = Ok [r2] /\
    integrations_of r2
    = Some (others integ ++
            [("shopify", JObj (Dict.set "id" (JStr "shopify") o))]).
Proof.
  intros Hi Hwf Hsh Hd Hc.
  destruct (last_shopify integ) as [[k o]|] eqn:E;
    [|apply last_shopify_None in E; lia].
  destruct (last_shopify_In _ _ _ E) as [_ Hm].
  destruct (integrations_of_inv _ _ Hi) as [top [customer [-> [Hcu Hin]]]].
  pose (d1 := others integ ++ [("shopify", JObj (Dict.set "id" (JStr k) o))]).
  pose (d2 := others integ ++
              [("shopify", JObj (Dict.set "id" (JStr "shopify") o))]).
  pose (c1 := Dict.set "integrations" (JObj d1) customer).
  pose (t1 := Dict.set "customer" (JObj c1) top).
  exists (JObj t1).
  exists (JObj (Dict.set "customer"
                  (JObj (Dict.set "integrations" (JObj d2) c1)) t1)).
  exists k, o.
  split; [reflexivity|]. split.
  - apply (parse_response_intro top customer integ d1 Hcu Hin).
    rewrite (swap_keys_clean integ Hwf Hsh Hd).
    unfold shopify_slot. now rewrite E.
  - split; [apply integrations_of_set|]. split; [|apply integrations_of_set].
    apply (parse_response_intro t1 c1 d1 d2).
    + apply DictFacts.get_set_same.
    + apply DictFacts.get_set_same.
    + unfold d1, d2. rewrite swap_keys_relocated.
      * now rewrite set_set.
      * now apply others_no_shopify_key.
      * intros k' v'. now apply others_spec.
      * now rewrite is_shopify_set_id.
Qed.

Lemma parse_response_twice_witness :
  exists r1 r2 k o,
    last_shopify one_shopify = Some (k, o) /\
    parse_response (response_with one_shopify) = Ok [r1] /\
    integrations_of r1
    = Some (others one_shopify ++
            [("shopify", JObj (Dict.set "id" (JStr k) o))]) /\
    parse_response r1 = Ok [r2] /\
    integrations_of r2
    = Some (others one_shopify ++
            [("shopify", JObj (Dict.set "id" (JStr "shopify") o))]).
Proof.
  apply (parse_response_twice (response_with one_shopify) one_shopify);
    reflexivity.
Defined.

(** ** parse_response: the type of the stored id *)

Lemma value_at_integrations (resp : json) (integ : dict) (fields : list string) :
  integrations_of resp = Some integ ->
  value_at ("customer" :: "integrations" :: fields) resp
  = value_at fields (JObj integ).
Proof.
  intros Hi.
  destruct (integrations_of_inv _ _ Hi) as [top [customer [-> [Hcu Hin]]]].
  simpl. now rewrite Hcu, Hin.
Qed.

(** X6: the ["id"] that [parse_response] stores in the relocated
    sub-object is the key of the mapping, hence always a string, whereas
    the ticket_details schema declares
    [customer.integrations.shopify.id] with [IntegerType]. *)
Theorem parse_response_id_is_key_string (resp : json) (integ : dict) :
  integrations_of resp = Some integ ->
  Dict.wfb integ = true ->
  Dict.get "shopify" integ = None ->
  forallb has_discriminator (map snd integ) = true ->
  (1 <= count_shopify integ)%nat ->
  type_at ["customer"; "integrations"; "shopify"; "id"]
    (ObjectType (schema TicketDetailsStream)) = Some IntegerType /\
  exists resp' k,
    parse_response resp = Ok [resp'] /\
    In k (Dict.keys integ) /\
    value_at ["customer"; "integrations"; "shopify"; "id"] resp'
    = Some (JStr k).
Proof.
  intros Hi Hwf Hsh Hd Hc. split; [reflexivity|].
  destruct (parse_response_clean resp integ Hi Hwf Hsh Hd) as [resp' [Hp Hi']].
  destruct (last_shopify integ) as [[k o]|] eqn:E;
    [|apply last_shopify_None in E; lia].
  destruct (last_shopify_In _ _ _ E) as [Hin _].
  exists resp', k. split; [exact Hp|]. split; [exact (In_keys _ _ _ Hin)|].
  rewrite (value_at_integrations resp' _ _ Hi').
  unfold shopify_slot. rewrite E.
  cbn [value_at]. rewrite (get_shopify_normalized integ _ Hsh).
  now rewrite DictFacts.get_set_same.
Qed.

Lemma parse_response_id_is_key_string_witness :
  type_at ["customer"; "integrations"; "shopify"; "id"]
    (ObjectType (schema TicketDetailsStream)) = Some IntegerType /\
  exists resp' k,
    parse_response (response_with one_shopify) = Ok [resp'] /\
    In k (Dict.keys one_shopify) /\
    value_at ["customer"; "integrations"; "shopify"; "id"] resp'
    = Some (JStr k).
Proof.
  apply (parse_response_id_is_key_string (response_with one_shopify) one_shopify);
    reflexivity.
Defined.

(** ** post_process: when it returns, and what *)

Lemma mapM_pop_message_ok (ms ms' : list json) :
  mapM pop_message ms = Ok ms' ->
  forallb is_object ms = true /\ ms' = map strip_bodies ms.
Proof.
  revert ms'. induction ms as [|m ms IH]; simpl; intros ms' H.
  - injection H as <-. auto.
  - destruct m as [| | | | | |d]; try discriminate.
    simpl in H. destruct (mapM pop_message ms) as [r|e]; [|discriminate].
    simpl in H. injection H as <-.
    destruct (IH r eq_refl) as [Ho ->]. auto.
Qed.

Lemma mapM_pop_message_total (ms : list json) :
  forallb is_object ms = true ->
  mapM pop_message ms = Ok (map strip_bodies ms).
Proof.
  induction ms as [|m ms IH]; simpl; intros H; [reflexivity|].
  apply andb_true_iff in H. destruct H as [Hm Hms].
  destruct m as [| | | | | |d]; try discriminate.
  simpl. now rewrite (IH Hms).
Qed.

Lemma mapM_pop_message_exn (ms : list json) (e : exn) :
  mapM pop_message ms = Err e -> e = TypeError \/ e = AttributeError.
Proof.
  induction ms as [|m ms IH]; simpl; intros H; [discriminate|].
  destruct m as [| | | | | |d]; simpl in H;
    try (injection H as <-; auto; fail).
  destruct (mapM pop_message ms) as [r|e']; simpl in H; [discriminate|].
  injection H as ->. now apply IH.
Qed.

(** The row [post_process] returns, from the value of ["messages"]. *)
Lemma post_process_inv (row : dict) (context : option dict) (row' : dict) :
  post_process row context = Ok row' ->
  exists m,
    Dict.get "messages" row = Some m /\
    iterable_of_dicts m = true /\
    row' = match m with
           | JArr ms =>
               Dict.set "messages" (JArr (map strip_bodies ms)) (pop_bodies row)
           | _ => pop_bodies row
           end.
Proof.
  unfold post_process, Dict.getitem.
  rewrite get_pop_bodies_other by reflexivity. intros H.
  destruct (Dict.get "messages" row) as [m|]; [|discriminate].
  exists m. split; [reflexivity|]. simpl in H.
  destruct m as [| | | |s|ms|fs]; try discriminate.
  - destruct s; [|discriminate]. injection H as <-. auto.
  - destruct (mapM pop_message ms) as [ms'|e] eqn:E; [|discriminate].
    simpl in H. injection H as <-.
    destruct (mapM_pop_message_ok ms ms' E) as [Ho ->]. auto.
  - destruct fs; [|discriminate]. injection H as <-. auto.
Qed.

(** X7: [post_process] returns a record exactly when the row has a
    ["messages"] value that is a list of dicts (or an empty dict or empty
    string, over which the loop does not run); a missing key, a value that
    cannot be iterated or one element that is not a dict makes it raise. *)
Theorem post_process_returns_iff (row : dict) (context : option dict) :
  (exists row', post_process row context = Ok row')
  <-> match Dict.get "messages" row with
      | Some m => iterable_of_dicts m = true
      | None => False
      end.
Proof.
  split.
  - intros [row' H].
    destruct (post_process_inv row context row' H) as [m [Hm [Hi _]]].
    now rewrite Hm.
  - unfold post_process, Dict.getitem.
    rewrite get_pop_bodies_other by reflexivity.
    destruct (Dict.get "messages" row) as [m|]; [|tauto].
    intros Hi. simpl.
    destruct m as [| | | |s|ms|fs]; try discriminate.
    + destruct s; [|discriminate]. eexists. reflexivity.
    + simpl in Hi. rewrite (mapM_pop_message_total ms Hi). simpl.
      eexists. reflexivity.
    + destruct fs; [|discriminate]. eexists. reflexivity.
Qed.

(** X8: [post_process] can only end with [KeyError("messages")],
    [TypeError] or [AttributeError]. *)
Theorem post_process_exceptions (row : dict) (context : option dict) (e : exn) :
  post_process row context = Err e ->
  post_process_exn e = true.
Proof.
  unfold post_process, Dict.getitem. intros H.
  destruct (Dict.get "messages" (pop_bodies row)) as [m|]; simpl in H;
    [|injection H as <-; reflexivity].
  destruct m as [| | | |s|ms|fs]; try (injection H as <-; reflexivity).
  - destruct s; [discriminate | injection H as <-; reflexivity].
  - destruct (mapM pop_message ms) as [r|e'] eqn:E; simpl in H; [discriminate|].
    injection H as ->.
    destruct (mapM_pop_message_exn ms e E) as [-> | ->]; reflexivity.
  - destruct fs; [discriminate | injection H as <-; reflexivity].
Qed.

Lemma post_process_exceptions_witness :
  post_process_exn AttributeError = true.
Proof.
  apply (post_process_exceptions
           [("id", JInt 7); ("messages", JArr [JStr "not a message"])] None).
  reflexivity.
Defined.

(** X9: [post_process] leaves every top-level field other than the four
    body fields and ["messages"] as it is, and keeps the remaining keys in
    their order. *)
Theorem post_process_frame (row : dict) (context : option dict) (row' : dict) :
  post_process row context = Ok row' ->
  Dict.keys row'
  = filter (fun k => negb (Dict.mem k body_fields)) (Dict.keys row) /\
  forall f, Dict.mem f body_fields = false -> f <> "messages" ->
            Dict.get f row' = Dict.get f row.
Proof.
  intros H. split; [exact (proj1 (post_process_keys row context row' H))|].
  intros f Hf Hm.
  destruct (post_process_inv row context row' H) as [m [_ [_ ->]]].
  destruct m; rewrite ?DictFacts.get_set_other by congruence;
    now apply get_pop_bodies_other.
Qed.

Lemma post_process_frame_witness :
  Dict.keys [ ("id", JInt 7); ("messages", JArr [JObj [("id", JInt 1)]]) ]
  = filter (fun k => negb (Dict.mem k body_fields))
      (Dict.keys [ ("id", JInt 7); ("body_text", JStr "hi");
                   ("messages", JArr [sample_message 1]) ]) /\
  forall f, Dict.mem f body_fields = false -> f <> "messages" ->
            Dict.get f [ ("id", JInt 7);
                         ("messages", JArr [JObj [("id", JInt 1)]]) ]
            = Dict.get f [ ("id", JInt 7); ("body_text", JStr "hi");
                           ("messages", JArr [sample_message 1]) ].
Proof.
  apply (post_process_frame
           [ ("id", JInt 7); ("body_text", JStr "hi");
             ("messages", JArr [sample_message 1]) ] None).
  reflexivity.
Defined.



(** ** post_process: applied to its own output *)

Lemma pop_bodies_fixed (d : dict) :
  lacks_bodies d = true -> pop_bodies d = d.
Proof.
  unfold lacks_bodies, body_fields. simpl. intros H.
  destruct (Dict.get "body_text" d) eqn:E1; [discriminate|].
  destruct (Dict.get "body_html" d) eqn:E2; [discriminate|].
  destruct (Dict.get "stripped_text" d) eqn:E3; [discriminate|].
  destruct (Dict.get "stripped_html" d) eqn:E4; [discriminate|].
  unfold pop_bodies, Dict.pop_default.
  assert (Hn : forall k, Dict.get k d = None -> Dict.remove k d = d).
  { intros k Hk. apply remove_notin. intros Hin.
    apply DictFacts.get_in_keys in Hin. congruence. }
  now rewrite (Hn _ E1), (Hn _ E2), (Hn _ E3), (Hn _ E4).
Qed.

Lemma strip_bodies_idem (m : json) :
  strip_bodies (strip_bodies m) = strip_bodies m.
Proof.
  destruct m as [| | | | | |d]; try reflexivity.
  simpl. now rewrite (pop_bodies_fixed _ (lacks_bodies_pop_bodies d)).
Qed.

Lemma forallb_is_object_strip (ms : list json) :
  forallb is_object (map strip_bodies ms) = forallb is_object ms.
Proof.
  induction ms as [|m ms IH]; simpl; [reflexivity|].
  rewrite IH. now destruct m.
Qed.

(** X11: [post_process] is idempotent: run on a record it has returned,
    it returns that record unchanged. *)
Theorem post_process_idempotent
  (row : dict) (context context' : option dict) (row' : dict) :
  post_process row context = Ok row' ->
  post_process row' context' = Ok row'.
Proof.
  intros H.
  destruct (post_process_inv row context row' H) as [m [Hm [Hi ->]]].
  assert (Hgm : Dict.get "messages" (pop_bodies row) = Some m)
    by (now rewrite get_pop_bodies_other).
  unfold post_process, Dict.getitem.
  destruct m as [| | | |s|ms|fs]; try discriminate.
  - destruct s; [|discriminate].
    rewrite (pop_bodies_fixed _ (lacks_bodies_pop_bodies row)).
    now rewrite Hgm.
  - rewrite (pop_bodies_fixed _
               (lacks_bodies_set_messages _ _ (lacks_bodies_pop_bodies row))).
    rewrite DictFacts.get_set_same. simpl.
    rewrite mapM_pop_message_total
      by (now rewrite forallb_is_object_strip).
    simpl. rewrite map_map.
    rewrite (map_ext _ _ strip_bodies_idem).
    now rewrite set_set.
  - destruct fs; [|discriminate].
    rewrite (pop_bodies_fixed _ (lacks_bodies_pop_bodies row)).
    now rewrite Hgm.
Qed.

Lemma post_process_idempotent_witness :
  post_process
    [ ("id", JInt 7);
      ("messages", JArr [JObj [("id", JInt 1)]; JObj [("id", JInt 2)]]) ]
    (Some [("ticket_id", JInt 7)])
  = Ok [ ("id", JInt 7);
         ("messages", JArr [JObj [("id", JInt 1)]; JObj [("id", JInt 2)]]) ].
Proof.
  apply (post_process_idempotent sample_row None). reflexivity.
Defined.

(** ** post_process and the schemas *)

Lemma declared_fields_not_pruned :
  forallb (fun f => negb (Dict.mem f body_fields)
                    && negb (String.eqb f "messages"))
    (schema_fields TicketDetailsStream) = true.
Proof. reflexivity. Qed.

(** X12: the four fields [post_process] removes are declared by the
    messages schema and not by the ticket_details schema, so nothing the
    ticket_details schema declares is lost: every declared top-level field
    of the row comes out unchanged. *)
Theorem post_process_keeps_declared_fields
  (row : dict) (context : option dict) (row' : dict) :
  post_process row context = Ok row' ->
  forallb (fun f => Dict.mem f (schema_fields MessagesStream)) body_fields
  = true /\
  forallb (fun f => negb (Dict.mem f (schema_fields TicketDetailsStream)))
    body_fields = true /\
  forall f, In f (schema_fields TicketDetailsStream) ->
            Dict.get f row' = Dict.get f row.
Proof.
  intros H. split; [reflexivity|]. split; [reflexivity|].
  intros f Hf.
  pose proof declared_fields_not_pruned as Hd.
  rewrite forallb_forall in Hd. specialize (Hd f Hf).
  apply andb_true_iff in Hd. destruct Hd as [Hb Hm].
  apply negb_true_iff in Hb, Hm. apply String.eqb_neq in Hm.
  destruct (post_process_inv row context row' H) as [m [_ [_ ->]]].
  destruct m; rewrite ?DictFacts.get_set_other by congruence;
    now apply get_pop_bodies_other.
Qed.

Lemma post_process_keeps_declared_fields_witness :
  forallb (fun f => Dict.mem f (schema_fields MessagesStream)) body_fields
  = true /\
  forallb (fun f => negb (Dict.mem f (schema_fields TicketDetailsStream)))
    body_fields = true /\
  forall f, In f (schema_fields TicketDetailsStream) ->
            Dict.get f
              [ ("id", JInt 7);
                ("messages", JArr [JObj [("id", JInt 1)]; JObj [("id", JInt 2)]]) ]
            = Dict.get f sample_row.
Proof.
  apply (post_process_keeps_declared_fields sample_row None). reflexivity.
Defined.

(** ** The two methods in sequence *)

(** X13: on a ticket-detail response whose integrations mapping has no
    ["shopify"] key and only entries with a discriminator, and whose
    ["messages"] is a list of dicts, the pipeline emits exactly one record:
    it has none of the four body fields, its messages are the response's
    without those fields, and its integrations mapping is the normalised
    one. *)
Theorem transform_emits_one_record
  (resp : json) (context : option dict) (integ : dict) (ms : list json) :
  integrations_of resp = Some integ ->
  Dict.wfb integ = true ->
  Dict.get "shopify" integ = None ->
  forallb has_discriminator (map snd integ) = true ->
  value_at ["messages"] resp = Some (JArr ms) ->
  forallb is_object ms = true ->
  exists row',
    transform resp context = Ok [row'] /\
    lacks_bodies row' = true /\
    Dict.get "messages" row' = Some (JArr (map strip_bodies ms)) /\
    integrations_of (JObj row') = Some (others integ ++ shopify_slot [] integ).
Proof.
  intros Hi Hwf Hsh Hd Hm Ho.
  destruct (integrations_of_inv _ _ Hi) as [top [customer [-> [Hcu Hin]]]].
  simpl in Hm.
  destruct (Dict.get "messages" top) as [m|] eqn:Em; [|discriminate].
  injection Hm as ->.
  pose (d1 := others integ ++ shopify_slot [] integ).
  pose (c1 := Dict.set "integrations" (JObj d1) customer).
  pose (t1 := Dict.set "customer" (JObj c1) top).
  assert (Hm1 : Dict.get "messages" t1 = Some (JArr ms)).
  { unfold t1. now rewrite DictFacts.get_set_other by discriminate. }
  exists (Dict.set "messages" (JArr (map strip_bodies ms)) (pop_bodies t1)).
  split; [|split; [|split]].
  - unfold transform.
    rewrite (parse_response_intro top customer integ d1 Hcu Hin
               (swap_keys_clean integ Hwf Hsh Hd)).
    simpl. fold c1. fold t1.
    unfold post_process, Dict.getitem.
    rewrite get_pop_bodies_other by reflexivity. rewrite Hm1. simpl.
    now rewrite (mapM_pop_message_total ms Ho).
  - apply lacks_bodies_set_messages, lacks_bodies_pop_bodies.
  - apply DictFacts.get_set_same.
  - unfold integrations_of.
    rewrite DictFacts.get_set_other by discriminate.
    rewrite get_pop_bodies_other by reflexivity.
    unfold t1. rewrite DictFacts.get_set_same.
    unfold c1. now rewrite DictFacts.get_set_same.
Qed.

Lemma transform_emits_one_record_witness :
  exists row',
    transform (response_with two_shopify) None = Ok [row'] /\
    lacks_bodies row' = true /\
    Dict.get "messages" row'
    = Some (JArr (map strip_bodies [sample_message 1; sample_message 2])) /\
    integrations_of (JObj row')
    = Some (others two_shopify ++ shopify_slot [] two_shopify).
Proof.
  apply (transform_emits_one_record (response_with two_shopify) None two_shopify
           [sample_message 1; sample_message 2]);
    reflexivity.
Defined.

(** ** get_child_context: one context per ticket id *)

(** X14: two parent records get the same outcome from
    [get_child_context] exactly when they agree on ["id"]; the other
    fields of the record and the context passed in play no part, and
    tickets with different ids get different contexts. *)
Theorem get_child_context_same_iff_same_id
  (r1 r2 : dict) (c1 c2 : option dict) :
  get_child_context r1 c1 = get_child_context r2 c2
  <-> Dict.get "id" r1 = Dict.get "id" r2.
Proof.
  unfold get_child_context, Dict.getitem.
  destruct (Dict.get "id" r1) as [a|], (Dict.get "id" r2) as [b|]; simpl;
    split; intros H; try discriminate; try reflexivity.
  - now injection H as ->.
  - now injection H as ->.
Qed.

(** ** The stream declarations taken together *)

(** X15: every stream's primary keys are top-level fields of its schema,
    declared with [IntegerType]; the replication key of tickets is a
    top-level field of its schema, declared with [DateTimeType]. *)
Theorem keys_are_declared (s : StreamClass) :
  forallb (declared_integer s) (primary_keys s) = true /\
  type_at ["updated_datetime"] (ObjectType (schema TicketsStream))
  = Some DateTimeType.
Proof. split; [destruct s|]; reflexivity. Qed.

(** X16: no schema declares a property name twice, at the top level or
    inside any nested object or array type. *)
Theorem schemas_have_unique_properties (s : StreamClass) :
  unique_props (ObjectType (schema s)) = true.
Proof. destruct s; reflexivity. Qed.

(** X17: two stream classes have the same name only if they are the same
    class, and likewise for the path. *)
Theorem names_and_paths_distinct (a b : StreamClass) :
  String.eqb (name a) (name b) = stream_eqb a b /\
  String.eqb (path a) (path b) = stream_eqb a b.
Proof. destruct a, b; split; reflexivity. Qed.

(** X18: a stream without a parent has a path without placeholders; a
    stream with a parent has tickets as parent, which has no parent itself,
    and whenever [get_child_context] returns a context for a parent record,
    that context provides every placeholder of the child's path. *)
Theorem child_paths_are_provided
  (s : StreamClass) (record : dict) (context : option dict) :
  match parent_stream_type s with
  | Some p =>
      p = TicketsStream /\
      parent_stream_type p = None /\
      match get_child_context record context with
      | Ok c => provides c (path s) = true
      | Err e => e = KeyError "id"
      end
  | None => placeholders (path s) = []
  end.
Proof.
  unfold get_child_context, Dict.getitem.
  destruct s; simpl; try reflexivity;
    (split; [reflexivity|]; split; [reflexivity|]);
    destruct (Dict.get "id" record); reflexivity.
Qed.
